(** * The intent-classifier Featurizer of snips-nlu

    A shallow embedding of [snips_nlu/intent_classifier/feature_extraction.py]
    and the properties of its [Featurizer]: query preprocessing, the entity
    index, chi-squared feature selection with stop-word demotion, and the
    dictionary serialization.

    Python dictionaries are finite maps ([gmap]), Python sets are finite sets
    ([gset]); methods that mutate [self] return the new object next to their
    result; a call that raises is an [outcome] carrying the exception. *)

From Stdlib Require Import QArith Lqa Sorted Reals.
From stdpp Require Import gmap strings list fin_maps.

Local Open Scope string_scope.

(** ** Python values *)

(** The exception classes that can travel through the module: Python's own,
    scikit-learn's [NotFittedError], and the two classes that only the
    specification names. *)
Inductive exn :=
  | AttributeError
  | KeyError
  | IndexError
  | ValueError
  | NotFittedError
  | StateMismatchError
  | UnknownLanguageError.

Inductive outcome (A : Type) :=
  | Returns (a : A)
  | Raises (e : exn).
Arguments Returns {A} a.
Arguments Raises {A} e.

Definition obind {A B} (c : outcome A) (k : A → outcome B) : outcome B :=
  match c with
  | Returns a => k a
  | Raises e => Raises e
  end.

Notation "'let!' x ':=' c 'in' k" := (obind c (fun x => k))
  (at level 10, x pattern, c at level 100, k at level 200).

(** A list comprehension whose body may raise. *)
Fixpoint traverse {A B} (f : A → outcome B) (l : list A) : outcome (list B) :=
  match l with
  | [] => Returns []
  | a :: l' =>
      let! b := f a in
      let! bs := traverse f l' in
      Returns (b :: bs)
  end.

(** A Python float: a finite value, kept as the rational it denotes, or NaN.
    Rounding is not modelled; comparisons follow IEEE 754, where every
    comparison with NaN is false. *)
Inductive pyfloat :=
  | NaN
  | Fin (q : Q).

Definition Qltb (x y : Q) : bool := negb (Qle_bool y x).

Definition flt (a b : pyfloat) : bool :=
  match a, b with
  | Fin x, Fin y => Qltb x y
  | _, _ => false
  end.

Definition fgt (a b : pyfloat) : bool := flt b a.

Definition feq (a b : pyfloat) : bool :=
  match a, b with
  | Fin x, Fin y => Qeq_bool x y
  | _, _ => false
  end.

Definition fdiv (a b : pyfloat) : pyfloat :=
  match a, b with
  | Fin x, Fin y => Fin (x / y)
  | _, _ => NaN
  end.

(** [numpy.minimum]: NaN propagates. *)
Definition fmin (a b : pyfloat) : pyfloat :=
  match a, b with
  | Fin x, Fin y => if Qle_bool x y then Fin x else Fin y
  | _, _ => NaN
  end.

Definition is_nan (a : pyfloat) : bool :=
  match a with NaN => true | Fin _ => false end.

(** A sparse matrix: its number of columns and its rows; an entry that a row
    does not store is zero. *)
Record Matrix := {
  n_cols : nat;
  rows : list (list pyfloat)
}.

(** Truth value of a Python string: only the empty string is false. *)
Definition truthy (s : string) : bool :=
  negb (String.length s =? 0)%nat.

(** [processed_query.encode("utf8")]: strings are kept as their UTF-8 bytes
    throughout, so encoding leaves them as they are. *)
Definition encode_utf8 (s : string) : string := s.

(** ** The dataset *)

Record EntityValue := {
  ent_value : string;
  ent_synonyms : list string
}.

Record EntityData := {
  use_synonyms : bool;
  ent_data : list EntityValue
}.

Record Dataset := {
  ds_entities : gmap string EntityData
}.

(** ** Collaborators

    Everything the module imports: the language enumeration, the language
    resources, the tokenizer, the n-gram extractor, and the scikit-learn
    estimators. None of them is defined by the module, so the development is
    parametric in them. *)
Class Collaborators := {
  Language : Type;
  Language_EN : Language;
  iso_code : Language → string;
  (** the language of an ISO code, when there is one *)
  language_of_iso_code : string → option Language;
  language_of_iso_code_iso_code :
    ∀ l, language_of_iso_code (iso_code l) = Some l;
  default_sep : Language → string;
  tokenize_light : string → Language → list string;
  normalize : string → string;
  stem : string → Language → string;
  (** [language in get_stems()] *)
  in_get_stems : Language → bool;
  get_stop_words : Language → gset string;
  (** [get_word_clusters(language)[cluster_name]] *)
  get_word_clusters : Language → string → gmap string string;
  (** the [NGRAM] text of every n-gram of [get_all_ngrams] *)
  get_all_ngrams : list string → list string;
  is_builtin_entity : string → bool;
  (** [unicode.lower] *)
  str_lower : string → string;
  (** the module-level table, filled by configuration *)
  CLUSTER_USED_PER_LANGUAGES : Language → option string;
  (** [TfidfVectorizer.fit_transform] with the tokenizer of a language:
      the learned vocabulary, the diagonal of the IDF matrix, and the
      weighted matrix *)
  sk_fit_transform :
    Language → list string →
    outcome (gmap string nat * list pyfloat * Matrix);
  (** [TfidfVectorizer.transform] of a fitted vectorizer *)
  sk_transform :
    Language → gmap string nat → list pyfloat → list string →
    outcome Matrix;
  (** the p-values of [sklearn.feature_selection.chi2] *)
  chi2 : Matrix → list nat → outcome (list pyfloat);
  (** [X[:, None]] on a scipy sparse matrix *)
  getitem_none : Matrix → outcome Matrix
}.

(** Modelled from the spec: [Language.from_iso_code] is defined in
    [snips_nlu.languages], which is not part of the module; the specification
    names the error of an unrecognized code [UnknownLanguageError]. *)
Definition from_iso_code `{Collaborators} (code : string) : outcome Language :=
  match language_of_iso_code code with
  | Some l => Returns l
  | None => Raises UnknownLanguageError
  end.

(** ** The vectorizer and the Featurizer objects *)

(** A [TfidfVectorizer] built by [default_tfidf_vectorizer]: the language its
    tokenizer closes over and, once fitted, [vocabulary_] and the data of
    [_tfidf._idf_diag]. *)
Record TfidfVectorizer `{Collaborators} := {
  tokenizer_language : Language;
  vocabulary_ : option (gmap string nat);
  _idf_diag : option (list pyfloat)
}.

Record Featurizer `{Collaborators} := {
  language : Language;
  tfidf_vectorizer : TfidfVectorizer;
  best_features : option (list nat);
  pvalue_threshold : pyfloat;
  entity_utterances_to_entity_names : option (gmap string (gset string))
}.

(** The value returned by [fit]: [None] or [self]. *)
Inductive fit_return :=
  | ReturnNone
  | ReturnSelf.

(** The map produced by [to_dict]. *)
Record VectorizerDict := {
  vd_vocab : gmap string nat;
  vd_idf_diag : list pyfloat
}.

Record FeaturizerDict := {
  fd_language_code : string;
  fd_tfidf_vectorizer : VectorizerDict;
  fd_best_features : option (list nat);
  fd_pvalue_threshold : pyfloat;
  fd_entity_utterances_to_entity_names : gmap string (list string)
}.

Section FeatureExtraction.
Context `{C : Collaborators}.

Definition default_tfidf_vectorizer (language : Language) : TfidfVectorizer :=
  {| tokenizer_language := language;
     vocabulary_ := None;
     _idf_diag := None |}.

Definition entity_name_to_feature (entity_name : string) : string :=
  "entityfeature" +:+ String.concat "" (tokenize_light entity_name Language_EN).

Definition normalize_stem (text : string) (language : Language) : string :=
  let normalized_stemmed := normalize text in
  if in_get_stems language then stem normalized_stemmed language
  else normalized_stemmed.

Definition get_word_cluster_features
    (query_tokens : list string) (language : Language) : list string :=
  match CLUSTER_USED_PER_LANGUAGES language with
  | None => []
  | Some cluster_name =>
      if truthy cluster_name then
        omap (fun ngram =>
                match get_word_clusters language cluster_name
                        !! str_lower ngram with
                | Some cluster => if truthy cluster then Some cluster else None
                | None => None
                end)
             (get_all_ngrams query_tokens)
      else []
  end.

(** The loop of [get_dataset_entities_features]: [.get] is called on the
    index once per n-gram, so an index that is [None] raises at the first
    n-gram and not before. *)
Fixpoint entity_features_loop
    (index : option (gmap string (gset string)))
    (ngrams : list string) (entity_features : list string)
    : outcome (list string) :=
  match ngrams with
  | [] => Returns entity_features
  | ngram :: ngrams' =>
      match index with
      | None => Raises AttributeError
      | Some m =>
          entity_features_loop index ngrams'
            (entity_features ++
             (entity_name_to_feature <$> elements (default ∅ (m !! ngram))))
      end
  end.

Definition get_dataset_entities_features
    (normalized_stemmed_tokens : list string)
    (index : option (gmap string (gset string))) : outcome (list string) :=
  entity_features_loop index (get_all_ngrams normalized_stemmed_tokens) [].

Definition preprocess_query
    (query : string) (language : Language)
    (index : option (gmap string (gset string))) : outcome string :=
  let query_tokens := tokenize_light query language in
  let word_clusters_features :=
    get_word_cluster_features query_tokens language in
  let normalized_stemmed_tokens :=
    (fun t => normalize_stem t language) <$> query_tokens in
  let! entities_features :=
    get_dataset_entities_features normalized_stemmed_tokens index in
  let features :=
    String.concat (default_sep language) normalized_stemmed_tokens in
  let features :=
    if (length entities_features =? 0)%nat then features
    else features +:+ " " +:+ String.concat " " entities_features in
  let features :=
    if (length word_clusters_features =? 0)%nat then features
    else features +:+ " " +:+ String.concat " " word_clusters_features in
  Returns features.

(** [entities_utterances[u].add(entity_name)] on a [defaultdict(set)]. *)
Definition add_name (u entity_name : string)
    (m : gmap string (gset string)) : gmap string (gset string) :=
  <[u := default ∅ (m !! u) ∪ {[entity_name]}]> m.

Definition utterances_of (entity_data : EntityData) : list string :=
  if use_synonyms entity_data then
    ent ← ent_data entity_data; ent_value ent :: ent_synonyms ent
  else ent_value <$> ent_data entity_data.

Definition get_utterances_entities (dataset : Dataset)
    : gmap string (gset string) :=
  foldl (fun entities_utterances '(entity_name, entity_data) =>
           if is_builtin_entity entity_name then entities_utterances
           else foldl (fun acc u => add_name u entity_name acc)
                      entities_utterances (utterances_of entity_data))
        ∅ (map_to_list (ds_entities dataset)).

(** The first loop of [fit]: the index keyed by normalized and stemmed
    utterance, [entities[key].update(set(entities_names))]. *)
Definition normalized_entities (language : Language)
    (utterance_entities : gmap string (gset string))
    : gmap string (gset string) :=
  foldl (fun entities '(u, entities_names) =>
           let key := normalize_stem u language in
           <[key := default ∅ (entities !! key) ∪ entities_names]> entities)
        ∅ (map_to_list utterance_entities).


(** ** Feature selection *)

(** [[i for i, v in enumerate(l) if keep v]], numbering from [start]. *)
Fixpoint indices_from (start : nat) (keep : pyfloat → bool)
    (l : list pyfloat) : list nat :=
  match l with
  | [] => []
  | v :: l' =>
      if keep v then start :: indices_from (S start) keep l'
      else indices_from (S start) keep l'
  end.

Definition indices_where (keep : pyfloat → bool) (l : list pyfloat)
    : list nat :=
  indices_from 0 keep l.

(** [pval.min()] of a non-empty array. *)
Definition array_min (p : pyfloat) (ps : list pyfloat) : pyfloat :=
  foldl fmin p ps.

(** Lines 160-164 of [fit]. The fallback comprehension evaluates
    [pval.min()] once per element, so an empty array selects nothing and
    raises nothing. *)
Definition select_best_features (pval : list pyfloat)
    (pvalue_threshold : pyfloat) : list nat :=
  let best_features := indices_where (fun v => flt v pvalue_threshold) pval in
  if (length best_features =? 0)%nat then
    match pval with
    | [] => []
    | p :: ps => indices_where (fun val => feq val (array_min p ps)) pval
    end
  else best_features.

(** [{vocabulary_[x]: x for x in vocabulary_}]: a later item overwrites an
    earlier one with the same index. *)
Definition list_index_words (vocabulary : gmap string nat) : gmap nat string :=
  foldl (fun m '(x, i) => <[i := x]> m) ∅ (map_to_list vocabulary).

(** Lines 166-168 of [fit]. *)
Fixpoint feature_names_loop (index_words : gmap nat string)
    (pval : list pyfloat) (best_features : list nat)
    (feature_names : gmap nat (string * pyfloat))
    : outcome (gmap nat (string * pyfloat)) :=
  match best_features with
  | [] => Returns feature_names
  | i :: best_features' =>
      match index_words !! i with
      | None => Raises KeyError
      | Some word =>
          match pval !! i with
          | None => Raises IndexError
          | Some p =>
              feature_names_loop index_words pval best_features'
                (<[i := (word, p)]> feature_names)
          end
      end
  end.

(** [list.remove]: the first occurrence goes, [ValueError] when there is
    none. *)
Fixpoint list_remove (x : nat) (l : list nat) : outcome (list nat) :=
  match l with
  | [] => Raises ValueError
  | y :: l' =>
      if decide (x = y) then Returns l'
      else
        let! r := list_remove x l' in
        Returns (y :: r)
  end.

(** Should the stop-word pass remove a feature with this word and p-value? *)
Definition demoted (stop_words : gset string) (pvalue_threshold : pyfloat)
    (word : string) (pval : pyfloat) : bool :=
  bool_decide (word ∈ stop_words)
  && fgt pval (fdiv pvalue_threshold (Fin 2)).

(** Lines 170-173 of [fit]: the loop runs over the items of [feature_names]
    and removes from the list [best_features] in place; the list it has
    reached is returned next to the outcome. *)
Fixpoint demote_loop (stop_words : gset string) (pvalue_threshold : pyfloat)
    (feature_names : list (nat * (string * pyfloat)))
    (best_features : list nat) : list nat * outcome unit :=
  match feature_names with
  | [] => (best_features, Returns tt)
  | (feat, (word, pval)) :: feature_names' =>
      if demoted stop_words pvalue_threshold word pval then
        match list_remove feat best_features with
        | Raises e => (best_features, Raises e)
        | Returns best_features' =>
            demote_loop stop_words pvalue_threshold feature_names'
              best_features'
        end
      else
        demote_loop stop_words pvalue_threshold feature_names' best_features
  end.

(** The stop-word pass as the specification words it: a filter over the
    selection, from the word and the p-value of each selected index. An index
    survives unless its word is a stop word and its p-value exceeds half the
    threshold. *)
Definition survives (stop_words : gset string) (pvalue_threshold : pyfloat)
    (index_words : gmap nat string) (pval : list pyfloat) (i : nat) : bool :=
  match index_words !! i, pval !! i with
  | Some word, Some p => negb (demoted stop_words pvalue_threshold word p)
  | _, _ => true
  end.

Definition demotion_filter (stop_words : gset string)
    (pvalue_threshold : pyfloat) (index_words : gmap nat string)
    (pval : list pyfloat) (best_features : list nat) : list nat :=
  filter (λ i, survives stop_words pvalue_threshold index_words pval i = true)
         best_features.

(** No item of [feature_names] asks for the removal of index [i]. *)
Definition kept_by (stop_words : gset string) (pvalue_threshold : pyfloat)
    (feature_names : list (nat * (string * pyfloat))) (i : nat) : bool :=
  forallb (λ '(feat, (word, pval)),
             negb (bool_decide (feat = i)
                   && demoted stop_words pvalue_threshold word pval))
          feature_names.

(** ** The vectorizer's methods *)

Definition vectorizer_fit_transform (v : TfidfVectorizer)
    (raw_documents : list string) : TfidfVectorizer * outcome Matrix :=
  match sk_fit_transform (tokenizer_language v) raw_documents with
  | Raises e => (v, Raises e)
  | Returns (vocabulary, idf, X) =>
      ({| tokenizer_language := tokenizer_language v;
          vocabulary_ := Some vocabulary;
          _idf_diag := Some idf |},
       Returns X)
  end.

(** An unfitted vectorizer has no [vocabulary_] and its transformer no
    [_idf_diag]: scikit-learn's [check_is_fitted] raises. *)
Definition vectorizer_transform (v : TfidfVectorizer)
    (raw_documents : list string) : outcome Matrix :=
  match vocabulary_ v, _idf_diag v with
  | Some vocabulary, Some idf =>
      sk_transform (tokenizer_language v) vocabulary idf raw_documents
  | _, _ => Raises NotFittedError
  end.

(** [X[:, cols]] with a list of column indices. *)
Definition select_columns (X : Matrix) (cols : list nat) : outcome Matrix :=
  if forallb (fun j => j <? n_cols X)%nat cols then
    Returns {| n_cols := length cols;
               rows := (fun row => (fun j => nth j row (Fin 0)) <$> cols)
                       <$> rows X |}
  else Raises IndexError.

Definition getitem_columns (X : Matrix) (cols : option (list nat))
    : outcome Matrix :=
  match cols with
  | Some cols => select_columns X cols
  | None => getitem_none X
  end.

(** ** The Featurizer's methods *)

Definition Featurizer_init (language : Language)
    (tfidf_vectorizer : option TfidfVectorizer)
    (best_features : option (list nat))
    (entity_utterances_to_entity_names : option (gmap string (gset string)))
    (pvalue_threshold : pyfloat) : Featurizer :=
  {| language := language;
     tfidf_vectorizer :=
       match tfidf_vectorizer with
       | None => default_tfidf_vectorizer language
       | Some v => v
       end;
     best_features := best_features;
     pvalue_threshold := pvalue_threshold;
     entity_utterances_to_entity_names := entity_utterances_to_entity_names |}.

(** The default of the [pvalue_threshold] argument. *)
Definition default_pvalue_threshold : pyfloat := Fin (4 # 10).

Definition preprocess_queries (self : Featurizer) (queries : list string)
    : outcome (list string) :=
  traverse (fun q =>
              let! processed_query :=
                preprocess_query q (language self)
                  (entity_utterances_to_entity_names self) in
              Returns (encode_utf8 processed_query))
           queries.

Definition set_entities (self : Featurizer)
    (entities : gmap string (gset string)) : Featurizer :=
  {| language := language self;
     tfidf_vectorizer := tfidf_vectorizer self;
     best_features := best_features self;
     pvalue_threshold := pvalue_threshold self;
     entity_utterances_to_entity_names := Some entities |}.

Definition set_vectorizer (self : Featurizer) (v : TfidfVectorizer)
    : Featurizer :=
  {| language := language self;
     tfidf_vectorizer := v;
     best_features := best_features self;
     pvalue_threshold := pvalue_threshold self;
     entity_utterances_to_entity_names :=
       entity_utterances_to_entity_names self |}.

Definition set_best_features (self : Featurizer) (best : list nat)
    : Featurizer :=
  {| language := language self;
     tfidf_vectorizer := tfidf_vectorizer self;
     best_features := Some best;
     pvalue_threshold := pvalue_threshold self;
     entity_utterances_to_entity_names :=
       entity_utterances_to_entity_names self |}.

(** The test of line 147: every query joins to the empty string. *)
Definition all_queries_empty (language : Language) (queries : list string)
    : bool :=
  forallb (fun q =>
             (String.length (String.concat "" (tokenize_light q language))
              =? 0)%nat)
          queries.

(** Lines 152-175 of [fit], after the degenerate-corpus test. *)
Definition fit_vectorizer_and_select (self : Featurizer)
    (queries : list string) (y : list nat) : Featurizer * outcome fit_return :=
  match preprocess_queries self queries with
  | Raises e => (self, Raises e)
  | Returns preprocessed_queries =>
      match vectorizer_fit_transform (tfidf_vectorizer self)
              preprocessed_queries with
      | (v, Raises e) => (set_vectorizer self v, Raises e)
      | (v, Returns X_train_tfidf) =>
          let self := set_vectorizer self v in
          match vocabulary_ v with
          | None => (self, Raises AttributeError)
          | Some vocabulary =>
              let index_words := list_index_words vocabulary in
              let stop_words := get_stop_words (language self) in
              match chi2 X_train_tfidf y with
              | Raises e => (self, Raises e)
              | Returns pval =>
                  let best := select_best_features pval
                                (pvalue_threshold self) in
                  let self := set_best_features self best in
                  match feature_names_loop index_words pval best ∅ with
                  | Raises e => (self, Raises e)
                  | Returns feature_names =>
                      let '(best, r) :=
                        demote_loop stop_words (pvalue_threshold self)
                          (map_to_list feature_names) best in
                      let self := set_best_features self best in
                      match r with
                      | Raises e => (self, Raises e)
                      | Returns _ => (self, Returns ReturnSelf)
                      end
                  end
              end
          end
      end
  end.

Definition fit (self : Featurizer) (dataset : Dataset)
    (queries : list string) (y : list nat) : Featurizer * outcome fit_return :=
  let utterance_entities := get_utterances_entities dataset in
  let entities := normalized_entities (language self) utterance_entities in
  let self := set_entities self entities in
  if all_queries_empty (language self) queries then (self, Returns ReturnNone)
  else fit_vectorizer_and_select self queries y.

(** The object that a [fit] returning [self] leaves behind, from the
    vocabulary, the IDF values and the p-values it went through. *)
Definition fitted_state (self : Featurizer) (dataset : Dataset)
    (vocabulary : gmap string nat) (idf pval : list pyfloat) : Featurizer :=
  {| language := language self;
     tfidf_vectorizer :=
       {| tokenizer_language := tokenizer_language (tfidf_vectorizer self);
          vocabulary_ := Some vocabulary;
          _idf_diag := Some idf |};
     best_features :=
       Some (demotion_filter (get_stop_words (language self))
               (pvalue_threshold self) (list_index_words vocabulary) pval
               (select_best_features pval (pvalue_threshold self)));
     pvalue_threshold := pvalue_threshold self;
     entity_utterances_to_entity_names :=
       Some (normalized_entities (language self)
               (get_utterances_entities dataset)) |}.

Definition transform (self : Featurizer) (queries : list string)
    : outcome Matrix :=
  let! preprocessed_queries := preprocess_queries self queries in
  let! X_train_tfidf :=
    vectorizer_transform (tfidf_vectorizer self) preprocessed_queries in
  getitem_columns X_train_tfidf (best_features self).

(** [self.fit(dataset, queries, y).transform(queries)]: the method call on
    what [fit] returned; [None] has no [transform]. *)
Definition fit_transform (self : Featurizer) (dataset : Dataset)
    (queries : list string) (y : list nat) : Featurizer * outcome Matrix :=
  match fit self dataset queries y with
  | (self', Raises e) => (self', Raises e)
  | (self', Returns ReturnNone) => (self', Raises AttributeError)
  | (self', Returns ReturnSelf) => (self', transform self' queries)
  end.

Definition to_dict (self : Featurizer) : outcome FeaturizerDict :=
  match vocabulary_ (tfidf_vectorizer self),
        _idf_diag (tfidf_vectorizer self),
        entity_utterances_to_entity_names self with
  | Some vocabulary, Some idf, Some index =>
      Returns
        {| fd_language_code := iso_code (language self);
           fd_tfidf_vectorizer :=
             {| vd_vocab := vocabulary; vd_idf_diag := idf |};
           fd_best_features := best_features self;
           fd_pvalue_threshold := pvalue_threshold self;
           fd_entity_utterances_to_entity_names := elements <$> index |}
  | _, _, _ => Raises AttributeError
  end.

Definition deserialize_tfidf_vectorizer (vectorizer_dict : VectorizerDict)
    (language : Language) : TfidfVectorizer :=
  {| tokenizer_language := tokenizer_language (default_tfidf_vectorizer language);
     vocabulary_ := Some (vd_vocab vectorizer_dict);
     _idf_diag := Some (vd_idf_diag vectorizer_dict) |}.

Definition from_dict (obj_dict : FeaturizerDict) : outcome Featurizer :=
  let! language := from_iso_code (fd_language_code obj_dict) in
  let tfidf_vectorizer :=
    deserialize_tfidf_vectorizer (fd_tfidf_vectorizer obj_dict) language in
  let entity_utterances_to_entity_names : gmap string (gset string) :=
    list_to_set <$> fd_entity_utterances_to_entity_names obj_dict in
  Returns (Featurizer_init language (Some tfidf_vectorizer)
             (fd_best_features obj_dict)
             (Some entity_utterances_to_entity_names)
             (fd_pvalue_threshold obj_dict)).

(** ** The weights of the vectorizer *)




End FeatureExtraction.

(** ** Executable stand-ins for the collaborators

    A small instance of [Collaborators] on which the model runs: two
    languages, a tokenizer that splits at spaces, contiguous n-grams, a
    vectorizer that counts terms, and a chi-squared test that answers with a
    given array of p-values. It serves to evaluate the methods on concrete
    inputs. *)
Module Toy.

Inductive Lang :=
  | EN
  | FR.

Definition iso (l : Lang) : string :=
  match l with EN => "en" | FR => "fr" end.

Definition of_iso (code : string) : option Lang :=
  if String.eqb code "en" then Some EN
  else if String.eqb code "fr" then Some FR
  else None.

Definition of_iso_iso (l : Lang) : of_iso (iso l) = Some l :=
  match l with EN => eq_refl | FR => eq_refl end.

(** The maximal runs of characters other than the space. *)
Fixpoint words_from (current : string) (s : string) : list string :=
  match s with
  | EmptyString => if truthy current then [current] else []
  | String c s' =>
      if Ascii.eqb c (Ascii.ascii_of_nat 32) then
        (if truthy current then [current] else []) ++ words_from "" s'
      else words_from (current +:+ String c "") s'
  end.

Definition words (s : string) : list string := words_from "" s.

Fixpoint nonempty_prefixes (l : list string) : list (list string) :=
  match l with
  | [] => []
  | x :: l' => [x] :: (cons x <$> nonempty_prefixes l')
  end.

Fixpoint ngrams (tokens : list string) : list string :=
  match tokens with
  | [] => []
  | _ :: tokens' =>
      (String.concat " " <$> nonempty_prefixes tokens) ++ ngrams tokens'
  end.

Fixpoint distinct (l : list string) : list string :=
  match l with
  | [] => []
  | x :: l' =>
      if existsb (String.eqb x) l' then distinct l' else x :: distinct l'
  end.

Definition count_column (vocabulary : gmap string nat) (doc : list string)
    (j : nat) : nat :=
  length (List.filter (fun t => bool_decide (vocabulary !! t = Some j)) doc).

Definition count_rows (vocabulary : gmap string nat) (idf : list pyfloat)
    (docs : list string) : Matrix :=
  {| n_cols := size vocabulary;
     rows := (fun doc =>
                (fun j =>
                   match nth j idf NaN with
                   | Fin w =>
                       Fin (inject_Z (Z.of_nat
                              (count_column vocabulary (words doc) j)) * w)
                   | NaN => NaN
                   end) <$> seq 0 (size vocabulary)) <$> docs |}.

Definition count_fit (docs : list string)
    : outcome (gmap string nat * list pyfloat * Matrix) :=
  let terms := distinct (docs ≫= words) in
  if (length terms =? 0)%nat then Raises ValueError
  else
    let vocabulary : gmap string nat :=
      list_to_map (zip terms (seq 0 (length terms))) in
    let idf := (fun _ => Fin 1) <$> terms in
    Returns (vocabulary, idf, count_rows vocabulary idf docs).

Definition collaborators (pval : outcome (list pyfloat)) : Collaborators :=
  {| Language := Lang;
     Language_EN := EN;
     iso_code := iso;
     language_of_iso_code := of_iso;
     language_of_iso_code_iso_code := of_iso_iso;
     default_sep := fun _ => " ";
     tokenize_light := fun s _ => words s;
     normalize := fun s => s;
     stem := fun s _ => s;
     in_get_stems := fun _ => false;
     get_stop_words := fun l =>
       match l with EN => {[ "the"; "a" ]} | FR => {[ "le"; "la" ]} end;
     get_word_clusters := fun _ _ => ∅;
     get_all_ngrams := ngrams;
     is_builtin_entity := String.prefix "snips/";
     str_lower := fun s => s;
     CLUSTER_USED_PER_LANGUAGES := fun _ => None;
     sk_fit_transform := fun _ docs => count_fit docs;
     sk_transform := fun _ vocabulary idf docs =>
       Returns (count_rows vocabulary idf docs);
     chi2 := fun _ _ => pval;
     getitem_none := fun _ => Raises IndexError |}.

(** A dataset with one custom entity that uses synonyms and one builtin
    entity. *)
Definition cities : Dataset :=
  {| ds_entities :=
       {[ "city" := {| use_synonyms := true;
                       ent_data := [ {| ent_value := "paris";
                                        ent_synonyms := ["Paris"] |} ] |};
          "snips/number" := {| use_synonyms := false; ent_data := [] |} ]} |}.

(** The chi-squared test answers with the p-values [0.36; 0.3; 0.04; 0.5],
    that is [0.9 * 0.4], [0.3], [0.1 * 0.4] and [0.5]. *)
Definition four_terms : Collaborators :=
  collaborators (Returns [Fin (36 # 100); Fin (3 # 10); Fin (4 # 100);
                          Fin (1 # 2)]).

(** The chi-squared test of the corpus [["the"; "the"]] with the labels
    [[0; 1]]: the only term weighs 1 in both documents, each class observes
    what it expects, the statistic is 0 and the p-value 1. *)
Definition one_stop_word : Collaborators := collaborators (Returns [Fin 1]).

(** [Featurizer(language)], all other arguments at their defaults. *)
Definition untrained (C : Collaborators) (l : @Language C) : @Featurizer C :=
  Featurizer_init l None None None default_pvalue_threshold.

Definition two_queries : list string := ["the flight"; "a hotel"].

Definition blank_queries : list string := [""; "   "].

(** The Featurizer that [fit] leaves on [two_queries]. *)
Definition fitted : @Featurizer four_terms :=
  (fit (untrained four_terms EN) cities two_queries [0; 1]).1.

(** A dictionary with two terms and a single IDF value. *)
Definition mismatched : FeaturizerDict :=
  {| fd_language_code := "en";
     fd_tfidf_vectorizer :=
       {| vd_vocab := {[ "a" := 0; "b" := 1 ]};
          vd_idf_diag := [Fin 1] |};
     fd_best_features := Some [0];
     fd_pvalue_threshold := default_pvalue_threshold;
     fd_entity_utterances_to_entity_names := ∅ |}.

(** The chi-squared test raises, as [chi2] does when the labels and the rows
    of the matrix differ in number. *)
Definition broken_chi2 : Collaborators := collaborators (Raises ValueError).

(** A vectorizer whose [fit_transform] raises, as scikit-learn's does on a
    corpus that leaves it no term. *)
Definition broken_vectorizer : Collaborators :=
  {| Language := Lang;
     Language_EN := EN;
     iso_code := iso;
     language_of_iso_code := of_iso;
     language_of_iso_code_iso_code := of_iso_iso;
     default_sep := fun _ => " ";
     tokenize_light := fun s _ => words s;
     normalize := fun s => s;
     stem := fun s _ => s;
     in_get_stems := fun _ => false;
     get_stop_words := fun _ => ∅;
     get_word_clusters := fun _ _ => ∅;
     get_all_ngrams := ngrams;
     is_builtin_entity := String.prefix "snips/";
     str_lower := fun s => s;
     CLUSTER_USED_PER_LANGUAGES := fun _ => None;
     sk_fit_transform := fun _ _ => Raises ValueError;
     sk_transform := fun _ vocabulary idf docs =>
       Returns (count_rows vocabulary idf docs);
     chi2 := fun _ _ => Returns [];
     getitem_none := fun _ => Raises IndexError |}.

Definition one_query : list string := ["the flight"].

(** A dictionary whose entity index lists a name twice. *)
Definition repeated_names : FeaturizerDict :=
  {| fd_language_code := "en";
     fd_tfidf_vectorizer :=
       {| vd_vocab := {[ "a" := 0 ]}; vd_idf_diag := [Fin 1] |};
     fd_best_features := Some [0];
     fd_pvalue_threshold := default_pvalue_threshold;
     fd_entity_utterances_to_entity_names :=
       {[ "paris" := ["city"; "town"; "city"] ]} |}.

End Toy.

(** * Properties *)

Section Properties.
Context `{C : Collaborators}.

(** ** Tokens that join to the empty string *)

Lemma string_length_app (s1 s2 : string) :
  String.length (s1 +:+ s2) = String.length s1 + String.length s2.
Proof. induction s1 as [|c s1 IH]; simpl; [done | by rewrite IH]. Qed.

Lemma string_length_0 (s : string) : String.length s = 0 ↔ s = "".
Proof. by destruct s. Qed.

Lemma concat_no_separator_cons (t : string) (ts : list string) :
  String.length (String.concat "" (t :: ts))
  = String.length t + String.length (String.concat "" ts).
Proof.
  destruct ts as [|t' ts]; simpl; [lia |].
  by rewrite string_length_app.
Qed.

Lemma joined_tokens_empty (ts : list string) :
  String.length (String.concat "" ts) = 0 ↔ Forall (λ t, t = "") ts.
Proof.
  induction ts as [|t ts IH]; [by split; [constructor |] |].
  rewrite concat_no_separator_cons, Forall_cons, <- IH, <- string_length_0.
  lia.
Qed.

Lemma all_queries_empty_spec (l : Language) (queries : list string) :
  all_queries_empty l queries = true
  ↔ Forall (λ q, Forall (λ t, t = "") (tokenize_light q l)) queries.
Proof.
  unfold all_queries_empty.
  rewrite forallb_forall, Forall_forall.
  split; intros H q Hq.
  - apply joined_tokens_empty, Nat.eqb_eq, H. by apply list_elem_of_In.
  - apply Nat.eqb_eq, joined_tokens_empty, H. by apply list_elem_of_In.
Qed.

(** ** The entity index *)

Lemma add_names_lookup (n : string) (us : list string)
    (acc : gmap string (gset string)) (u x : string) :
  x ∈ default ∅ (foldl (λ acc u, add_name u n acc) acc us !! u)
  ↔ x ∈ default ∅ (acc !! u) ∨ (x = n ∧ u ∈ us).
Proof.
  revert acc. induction us as [|u' us IH]; intros acc; simpl.
  - set_solver.
  - rewrite IH. unfold add_name.
    destruct (decide (u' = u)) as [->|Hne].
    + rewrite lookup_insert_eq. simpl. set_solver.
    + rewrite lookup_insert_ne by done. set_solver.
Qed.

Lemma utterances_entities_fold (l : list (string * EntityData))
    (acc : gmap string (gset string)) (u x : string) :
  x ∈ default ∅
        (foldl (λ entities_utterances '(entity_name, entity_data),
                  if is_builtin_entity entity_name then entities_utterances
                  else foldl (λ acc u, add_name u entity_name acc)
                             entities_utterances (utterances_of entity_data))
               acc l !! u)
  ↔ x ∈ default ∅ (acc !! u)
    ∨ ∃ d, (x, d) ∈ l ∧ is_builtin_entity x = false ∧ u ∈ utterances_of d.
Proof.
  revert acc. induction l as [|[n d] l IH]; intros acc; simpl.
  - split; [by left | intros [H | (d & H & _)]; [done | by inversion H]].
  - rewrite IH. destruct (is_builtin_entity n) eqn:Hb.
    + split.
      * intros [H | (d' & H & H')]; [by left | right].
        exists d'. split; [by right | done].
      * intros [H | (d' & H & Hb' & Hu)]; [by left |].
        apply elem_of_cons in H as [H | H].
        -- congruence.
        -- right. by exists d'.
    + rewrite add_names_lookup. split.
      * intros [[H | [-> Hu]] | (d' & H & H')].
        -- by left.
        -- right. exists d. split; [by left | done].
        -- right. exists d'. split; [by right | done].
      * intros [H | (d' & H & Hb' & Hu)]; [by left; left |].
        apply elem_of_cons in H as [H | H].
        -- inversion H; subst. left. by right.
        -- right. by exists d'.
Qed.

(** What [get_utterances_entities] returns: an utterance names exactly the
    entities that are not builtin and list it. *)
Lemma get_utterances_entities_spec (dataset : Dataset) (u x : string) :
  x ∈ default ∅ (get_utterances_entities dataset !! u)
  ↔ ∃ d, ds_entities dataset !! x = Some d
         ∧ is_builtin_entity x = false
         ∧ u ∈ utterances_of d.
Proof.
  unfold get_utterances_entities. rewrite utterances_entities_fold.
  rewrite lookup_empty. simpl. split.
  - intros [H | (d & H & H')]; [set_solver |].
    exists d. by rewrite <- elem_of_map_to_list.
  - intros (d & H & H'). right. exists d. by rewrite elem_of_map_to_list.
Qed.

Lemma normalized_entities_fold (l : Language)
    (items : list (string * gset string))
    (acc : gmap string (gset string)) (k x : string) :
  x ∈ default ∅
        (foldl (λ entities '(u, entities_names),
                  let key := normalize_stem u l in
                  <[key := default ∅ (entities !! key) ∪ entities_names]>
                    entities)
               acc items !! k)
  ↔ x ∈ default ∅ (acc !! k)
    ∨ ∃ u names, (u, names) ∈ items ∧ x ∈ names ∧ normalize_stem u l = k.
Proof.
  revert acc. induction items as [|[u names] items IH]; intros acc; simpl.
  - split; [by left | intros [H | (? & ? & H & _)]; [done | by inversion H]].
  - rewrite IH. split.
    + intros [H | (u' & names' & H & H')].
      * destruct (decide (normalize_stem u l = k)) as [Hk | Hk].
        -- rewrite Hk, lookup_insert_eq in H. simpl in H.
           apply elem_of_union in H as [H | H]; [by left | right].
           exists u, names. split; [by left | done].
        -- rewrite lookup_insert_ne in H by done. by left.
      * right. exists u', names'. split; [by right | done].
    + intros [H | (u' & names' & H & Hx & Hk)].
      * left. destruct (decide (normalize_stem u l = k)) as [Hk | Hk].
        -- rewrite Hk, lookup_insert_eq. simpl. set_solver.
        -- by rewrite lookup_insert_ne.
      * apply elem_of_cons in H as [H | H].
        -- inversion H; subst. left. rewrite lookup_insert_eq. simpl.
           set_solver.
        -- right. by exists u', names'.
Qed.

(** The index that [fit] stores: a key names exactly the entities, not
    builtin, one of whose utterances normalizes and stems to the key. *)
Lemma entity_index_spec (l : Language) (dataset : Dataset) (k x : string) :
  x ∈ default ∅
        (normalized_entities l (get_utterances_entities dataset) !! k)
  ↔ ∃ d u, ds_entities dataset !! x = Some d
           ∧ is_builtin_entity x = false
           ∧ u ∈ utterances_of d
           ∧ normalize_stem u l = k.
Proof.
  unfold normalized_entities. rewrite normalized_entities_fold.
  rewrite lookup_empty. simpl. split.
  - intros [H | (u & names & H & Hx & Hk)]; [set_solver |].
    apply elem_of_map_to_list in H.
    assert (x ∈ default ∅ (get_utterances_entities dataset !! u)) as Hin
      by (by rewrite H).
    apply get_utterances_entities_spec in Hin as (d & Hd & Hb & Hu).
    by exists d, u.
  - intros (d & u & Hd & Hb & Hu & Hk). right.
    assert (x ∈ default ∅ (get_utterances_entities dataset !! u)) as Hin
      by (apply get_utterances_entities_spec; by exists d).
    destruct (get_utterances_entities dataset !! u) as [names|] eqn:E;
      [| set_solver].
    exists u, names. by rewrite elem_of_map_to_list.
Qed.

(** ** Preprocessing *)

Lemma entity_features_loop_some (m : gmap string (gset string))
    (ngrams acc : list string) :
  ∃ features, entity_features_loop (Some m) ngrams acc = Returns features.
Proof.
  revert acc. induction ngrams as [|ngram ngrams IH]; intros acc; simpl.
  - by exists acc.
  - apply IH.
Qed.

Lemma preprocess_query_some (q : string) (l : Language)
    (m : gmap string (gset string)) :
  ∃ features, preprocess_query q l (Some m) = Returns features.
Proof.
  unfold preprocess_query, get_dataset_entities_features.
  destruct (entity_features_loop_some m
              (get_all_ngrams
                 ((λ t, normalize_stem t l) <$> tokenize_light q l)) [])
    as [features ->].
  simpl. by eexists.
Qed.

(** Without an index a query raises as soon as it has an n-gram, and only
    then. *)
Lemma preprocess_query_none (q : string) (l : Language) :
  preprocess_query q l None
  = match get_all_ngrams ((λ t, normalize_stem t l) <$> tokenize_light q l) with
    | [] =>
        Returns
          (let features :=
             String.concat (default_sep l)
               ((λ t, normalize_stem t l) <$> tokenize_light q l) in
           if (length (get_word_cluster_features (tokenize_light q l) l)
               =? 0)%nat
           then features
           else features +:+ " " +:+
                String.concat " "
                  (get_word_cluster_features (tokenize_light q l) l))
    | _ :: _ => Raises AttributeError
    end.
Proof.
  unfold preprocess_query, get_dataset_entities_features.
  by destruct (get_all_ngrams _).
Qed.

Lemma traverse_returns {A B} (f : A → outcome B) (l : list A) :
  (∀ a, a ∈ l → ∃ b, f a = Returns b) → ∃ bs, traverse f l = Returns bs.
Proof.
  induction l as [|a l IH]; intros H; simpl; [by eexists |].
  destruct (H a) as [b ->]; [by left |].
  destruct IH as [bs ->]; [intros a' Ha'; apply H; by right |].
  simpl. by eexists.
Qed.

Lemma traverse_raises {A B} (f : A → outcome B) (l : list A) (e : exn) :
  (∀ a, a ∈ l → (∃ b, f a = Returns b) ∨ f a = Raises e) →
  (∃ a, a ∈ l ∧ f a = Raises e) →
  traverse f l = Raises e.
Proof.
  induction l as [|a l IH]; intros Hall (a' & Hin & Hr).
  - by inversion Hin.
  - simpl. destruct (Hall a) as [[b Hb] | Hb]; [by left | | by rewrite Hb].
    rewrite Hb. simpl. rewrite IH; [done | |].
    + intros a'' Ha''. apply Hall. by right.
    + apply elem_of_cons in Hin as [-> | Hin]; [congruence |].
      by exists a'.
Qed.

Lemma preprocess_queries_with_index (self : Featurizer)
    (queries : list string) :
  is_Some (entity_utterances_to_entity_names self) →
  ∃ docs, preprocess_queries self queries = Returns docs.
Proof.
  intros [m Hm]. unfold preprocess_queries. apply traverse_returns.
  intros q _. rewrite Hm.
  destruct (preprocess_query_some q (language self) m) as [features ->].
  simpl. by eexists.
Qed.

(** ** The degenerate corpus *)

Lemma fit_degenerate (self : Featurizer) (dataset : Dataset)
    (queries : list string) (y : list nat) :
  Forall (λ q, Forall (λ t, t = "") (tokenize_light q (language self)))
         queries →
  fit self dataset queries y
  = (set_entities self
       (normalized_entities (language self)
          (get_utterances_entities dataset)),
     Returns ReturnNone).
Proof.
  intros H. unfold fit. simpl.
  by apply all_queries_empty_spec in H as ->.
Qed.

(** C2. When every query tokenizes to no token other than the empty one,
    [fit] raises nothing and returns [None], the value a caller tells from
    [self]; the vectorizer is not fitted and no feature is selected: both are
    as they were before the call. *)
Theorem fit_degenerate_corpus_returns_none (self : Featurizer)
    (dataset : Dataset) (queries : list string) (y : list nat) :
  Forall (λ q, Forall (λ t, t = "") (tokenize_light q (language self)))
         queries →
  ∃ self', fit self dataset queries y = (self', Returns ReturnNone)
           ∧ tfidf_vectorizer self' = tfidf_vectorizer self
           ∧ best_features self' = best_features self.
Proof.
  intros H. eexists. rewrite (fit_degenerate _ _ _ _ H). done.
Qed.

(** C10. On the same corpora the aborted [fit] is not atomic: the entity
    index of [self] is replaced by the one rebuilt from the dataset, whose
    keys are normalized and stemmed utterances and whose values are the sets
    of the entities, not builtin, that list such an utterance; the
    vectorizer, the selected features and the threshold stay as they were. *)
Theorem fit_degenerate_corpus_replaces_entity_index (self : Featurizer)
    (dataset : Dataset) (queries : list string) (y : list nat) :
  Forall (λ q, Forall (λ t, t = "") (tokenize_light q (language self)))
         queries →
  ∃ self' index,
    fit self dataset queries y = (self', Returns ReturnNone)
    ∧ entity_utterances_to_entity_names self' = Some index
    ∧ index = normalized_entities (language self)
                (get_utterances_entities dataset)
    ∧ (∀ k x, x ∈ default ∅ (index !! k)
              ↔ ∃ d u, ds_entities dataset !! x = Some d
                       ∧ is_builtin_entity x = false
                       ∧ u ∈ utterances_of d
                       ∧ normalize_stem u (language self) = k)
    ∧ tfidf_vectorizer self' = tfidf_vectorizer self
    ∧ best_features self' = best_features self
    ∧ pvalue_threshold self' = pvalue_threshold self.
Proof.
  intros H. eexists _, _. rewrite (fit_degenerate _ _ _ _ H).
  repeat split; try done; by apply entity_index_spec.
Qed.

(** C3. On a corpus whose queries all tokenize to no token other than the
    empty one, [fit_transform] calls [transform] on the [None] that [fit]
    returned: it raises [AttributeError], where [fit] returns its no-op
    value. *)
Theorem fit_transform_degenerate_corpus_raises (self : Featurizer)
    (dataset : Dataset) (queries : list string) (y : list nat) :
  Forall (λ q, Forall (λ t, t = "") (tokenize_light q (language self)))
         queries →
  (fit self dataset queries y).2 = Returns ReturnNone
  ∧ (fit_transform self dataset queries y).2 = Raises AttributeError.
Proof.
  intros H. unfold fit_transform. by rewrite (fit_degenerate _ _ _ _ H).
Qed.

(** ** [transform] before a fit *)

(** After an aborted [fit] the index is set and the vectorizer is still
    unfitted: [transform] reaches the vectorizer, which raises. *)
Lemma transform_after_aborted_fit (self : Featurizer) (dataset : Dataset)
    (queries queries' : list string) (y : list nat) :
  vocabulary_ (tfidf_vectorizer self) = None →
  Forall (λ q, Forall (λ t, t = "") (tokenize_light q (language self)))
         queries →
  transform (fit self dataset queries y).1 queries' = Raises NotFittedError.
Proof.
  intros Hv H. rewrite (fit_degenerate _ _ _ _ H). unfold transform. simpl.
  destruct (preprocess_queries_with_index
              (set_entities self
                 (normalized_entities (language self)
                    (get_utterances_entities dataset))) queries')
    as [docs ->]; [by eexists |].
  simpl. unfold vectorizer_transform. by rewrite Hv.
Qed.

(** A Featurizer that was only constructed raises [NotFittedError] as long as
    no query has an n-gram. *)
Lemma transform_never_fitted_no_ngram (l : Language)
    (best : option (list nat)) (threshold : pyfloat)
    (queries : list string) :
  Forall (λ q, get_all_ngrams
                 ((λ t, normalize_stem t l) <$> tokenize_light q l) = [])
         queries →
  transform (Featurizer_init l None best None threshold) queries
  = Raises NotFittedError.
Proof.
  intros H. unfold transform.
  destruct (traverse_returns
              (λ q, let! processed_query := preprocess_query q l None in
                    Returns (encode_utf8 processed_query)) queries)
    as [docs Hdocs].
  - intros q Hq. rewrite Forall_forall in H.
    rewrite preprocess_query_none, (H q Hq). simpl. by eexists.
  - unfold preprocess_queries. simpl. by rewrite Hdocs.
Qed.

(** C7. A Featurizer constructed with the default arguments and never fitted
    has no entity index: as soon as one query has an n-gram, [transform]
    raises [AttributeError] while preprocessing, before the vectorizer can
    raise [NotFittedError]. *)
Theorem transform_never_fitted_attribute_error (l : Language)
    (best : option (list nat)) (threshold : pyfloat)
    (queries : list string) :
  Exists (λ q, get_all_ngrams
                 ((λ t, normalize_stem t l) <$> tokenize_light q l) ≠ [])
         queries →
  transform (Featurizer_init l None best None threshold) queries
  = Raises AttributeError.
Proof.
  intros H. unfold transform, preprocess_queries. simpl.
  rewrite (traverse_raises _ queries AttributeError); [done | |].
  - intros q _. rewrite preprocess_query_none.
    destruct (get_all_ngrams _); simpl; [left; by eexists | by right].
  - apply Exists_exists in H as (q & Hq & Hn). exists q. split; [done |].
    rewrite preprocess_query_none.
    by destruct (get_all_ngrams _).
Qed.

(** ** Deserialization *)

(** C8, amended. [from_dict] looks the language code up first and lets the
    error of an unrecognized code through before anything is built; it
    compares no lengths: with a recognized code it returns a Featurizer
    whatever the vocabulary and the IDF sequence are. *)
Theorem from_dict_checks_language_only (obj_dict : FeaturizerDict) :
  match language_of_iso_code (fd_language_code obj_dict) with
  | None => from_dict obj_dict = Raises UnknownLanguageError
  | Some l =>
      from_dict obj_dict
      = Returns
          {| language := l;
             tfidf_vectorizer :=
               {| tokenizer_language := l;
                  vocabulary_ :=
                    Some (vd_vocab (fd_tfidf_vectorizer obj_dict));
                  _idf_diag :=
                    Some (vd_idf_diag (fd_tfidf_vectorizer obj_dict)) |};
             best_features := fd_best_features obj_dict;
             pvalue_threshold := fd_pvalue_threshold obj_dict;
             entity_utterances_to_entity_names :=
               Some (list_to_set
                       <$> fd_entity_utterances_to_entity_names obj_dict) |}
  end.
Proof.
  unfold from_dict, from_iso_code.
  by destruct (language_of_iso_code (fd_language_code obj_dict)).
Qed.

(** ** Selection by threshold, and its fallback *)

Lemma indices_from_spec (start : nat) (keep : pyfloat → bool)
    (l : list pyfloat) (i : nat) :
  i ∈ indices_from start keep l
  ↔ ∃ v, (start ≤ i)%nat ∧ l !! (i - start) = Some v ∧ keep v = true.
Proof.
  revert start. induction l as [|v l IH]; intros start; simpl.
  - split; [by intros H; inversion H | by intros (? & _ & ? & _)].
  - assert (i ∈ indices_from (S start) keep l
            ↔ ∃ v', (start ≤ i)%nat ∧ i ≠ start
                    ∧ l !! (i - S start) = Some v' ∧ keep v' = true) as IH'.
    { rewrite IH. split.
      - intros (v' & H & H'). exists v'. split; [lia | split; [lia | done]].
      - intros (v' & H & Hne & H'). exists v'. split; [lia | done]. }
    destruct (keep v) eqn:Hv; [rewrite elem_of_cons |]; rewrite IH'; split.
    + intros [-> | (v' & Hle & Hne & Hl & Hk)].
      * exists v. by rewrite Nat.sub_diag.
      * exists v'. split; [done |].
        replace (i - start) with (S (i - S start)) by lia. done.
    + intros (v' & Hle & Hl & Hk).
      destruct (decide (i = start)) as [-> | Hne]; [by left | right].
      exists v'. replace (i - start) with (S (i - S start)) in Hl by lia.
      done.
    + intros (v' & Hle & Hne & Hl & Hk). exists v'. split; [done |].
      replace (i - start) with (S (i - S start)) by lia. done.
    + intros (v' & Hle & Hl & Hk).
      destruct (decide (i = start)) as [-> | Hne].
      * rewrite Nat.sub_diag in Hl. simpl in Hl. congruence.
      * exists v'. replace (i - start) with (S (i - S start)) in Hl by lia.
        done.
Qed.

Lemma indices_where_spec (keep : pyfloat → bool) (l : list pyfloat)
    (i : nat) :
  i ∈ indices_where keep l ↔ ∃ v, l !! i = Some v ∧ keep v = true.
Proof.
  unfold indices_where. rewrite indices_from_spec.
  rewrite Nat.sub_0_r. split.
  - intros (v & _ & H). by exists v.
  - intros (v & H). exists v. split; [lia | done].
Qed.

Lemma indices_from_NoDup (start : nat) (keep : pyfloat → bool)
    (l : list pyfloat) :
  NoDup (indices_from start keep l).
Proof.
  revert start. induction l as [|v l IH]; intros start; simpl.
  - constructor.
  - destruct (keep v); [| apply IH].
    constructor; [| apply IH].
    rewrite indices_from_spec. intros (? & H & _). lia.
Qed.

Lemma nil_iff_no_elem {A} (l : list A) : l = [] ↔ ∀ x, x ∉ l.
Proof.
  split; [intros -> x H; inversion H |].
  destruct l as [|a l]; [done |]. intros H. destruct (H a). by left.
Qed.

Lemma fmin_finite (a b : pyfloat) :
  is_nan a = false → is_nan b = false →
  is_nan (fmin a b) = false ∧ (fmin a b = a ∨ fmin a b = b).
Proof.
  destruct a as [|x], b as [|y]; try done. intros _ _. simpl.
  destruct (Qle_bool x y); auto.
Qed.

(** The minimum of an array without NaN is one of its elements. *)
Lemma array_min_elem (p : pyfloat) (ps : list pyfloat) :
  Forall (λ v, is_nan v = false) (p :: ps) →
  is_nan (array_min p ps) = false ∧ array_min p ps ∈ p :: ps.
Proof.
  unfold array_min. revert p. induction ps as [|p' ps IH]; intros p H; simpl.
  - inversion H; subst. split; [done | by left].
  - inversion H as [|? ? Hp H']; subst. inversion H' as [|? ? Hp' Hps]; subst.
    destruct (fmin_finite p p' Hp Hp') as [Hn Hor].
    destruct (IH (fmin p p')) as [Hn' Hin]; [by constructor |].
    split; [done |].
    apply elem_of_cons in Hin as [Hin | Hin].
    + rewrite Hin. destruct Hor as [-> | ->]; [by left | right; by left].
    + right. by right.
Qed.

(** ... and lies below each of them. *)
Lemma array_min_le (p : pyfloat) (ps : list pyfloat) (m q : Q) :
  Forall (λ v, is_nan v = false) (p :: ps) →
  array_min p ps = Fin m → Fin q ∈ p :: ps → (m <= q)%Q.
Proof.
  unfold array_min. revert p q.
  induction ps as [|p' ps IH]; intros p q H Hm Hq.
  - simpl in Hm. subst. apply list_elem_of_singleton in Hq.
    inversion Hq. apply Qle_refl.
  - simpl in Hm.
    inversion H as [|? ? Hp H']; subst. inversion H' as [|? ? Hp' Hps]; subst.
    destruct p as [|x]; [done |]. destruct p' as [|y]; [done |].
    simpl in Hm. destruct (Qle_bool x y) eqn:Hxy.
    + apply elem_of_cons in Hq as [Hq | Hq];
        [| apply elem_of_cons in Hq as [Hq | Hq]].
      * apply (IH (Fin x)); [by constructor | done | rewrite Hq; by left].
      * inversion Hq; subst. apply Qle_bool_iff in Hxy.
        eapply Qle_trans; [| exact Hxy].
        apply (IH (Fin x)); [by constructor | done | by left].
      * apply (IH (Fin x)); [by constructor | done | by right].
    + assert (y <= x)%Q as Hyx.
      { destruct (Qlt_le_dec y x) as [Hlt | Hle]; [by apply Qlt_le_weak |].
        apply Qle_bool_iff in Hle. congruence. }
      apply elem_of_cons in Hq as [Hq | Hq];
        [| apply elem_of_cons in Hq as [Hq | Hq]].
      * inversion Hq; subst. eapply Qle_trans; [| exact Hyx].
        apply (IH (Fin y)); [by constructor | done | by left].
      * apply (IH (Fin y)); [by constructor | done | rewrite Hq; by left].
      * apply (IH (Fin y)); [by constructor | done | by right].
Qed.

Lemma feq_finite_refl (v : pyfloat) : is_nan v = false → feq v v = true.
Proof. destruct v; [done |]. intros _. apply Qeq_bool_refl. Qed.

(** Without NaN the fallback selects the positions of the least p-value. *)
Lemma fallback_spec (p : pyfloat) (ps : list pyfloat) (i : nat) :
  Forall (λ v, is_nan v = false) (p :: ps) →
  i ∈ indices_where (λ val, feq val (array_min p ps)) (p :: ps)
  ↔ ∃ q, (p :: ps) !! i = Some (Fin q)
         ∧ ∀ j q', (p :: ps) !! j = Some (Fin q') → (q <= q')%Q.
Proof.
  intros H. rewrite indices_where_spec.
  destruct (array_min_elem p ps H) as [Hn Hin].
  destruct (array_min p ps) as [|m] eqn:Hm; [done |].
  split.
  - intros (v & Hv & Heq). destruct v as [|q]; [done |].
    exists q. split; [done |]. intros j q' Hj.
    apply Qeq_bool_iff in Heq. rewrite Heq.
    apply (array_min_le p ps m q' H Hm).
    apply list_elem_of_lookup. by exists j.
  - intros (q & Hq & Hle). exists (Fin q). split; [done |].
    apply Qeq_bool_iff, Qle_antisym.
    + apply list_elem_of_lookup in Hin as [j Hj]. by apply (Hle j).
    + apply (array_min_le p ps m q H Hm).
      apply list_elem_of_lookup. by exists i.
Qed.

Lemma select_best_features_NoDup (pval : list pyfloat) (threshold : pyfloat) :
  NoDup (select_best_features pval threshold).
Proof.
  unfold select_best_features, indices_where.
  destruct (length _ =? 0)%nat; [| apply indices_from_NoDup].
  destruct pval; [constructor | apply indices_from_NoDup].
Qed.

Lemma select_best_features_finite_nonempty (pval : list pyfloat)
    (threshold : pyfloat) :
  Forall (λ v, is_nan v = false) pval → pval ≠ [] →
  select_best_features pval threshold ≠ [].
Proof.
  intros H Hne. unfold select_best_features.
  destruct (length _ =? 0)%nat eqn:E.
  - destruct pval as [|p ps]; [done |].
    destruct (array_min_elem p ps H) as [Hn Hin].
    apply list_elem_of_lookup in Hin as [i Hi].
    intros Hnil. apply nil_iff_no_elem with (x := i) in Hnil.
    apply Hnil, indices_where_spec. eexists. split; [exact Hi |].
    by apply feq_finite_refl.
  - intros Hnil. rewrite Hnil in E. done.
Qed.

(** C6, amended. [fit] first keeps exactly the indices whose p-value is
    strictly below the threshold; if and only if there is none, it keeps
    exactly the indices whose p-value equals the minimum of the array, which,
    when no p-value is NaN, are the indices of the least p-value; so the
    selection made before the stop-word pass is not empty whenever there is a
    p-value and none is NaN. *)
Theorem select_best_features_spec (pval : list pyfloat)
    (threshold : pyfloat) :
  let below := indices_where (λ v, flt v threshold) pval in
  (∀ i, i ∈ below ↔ ∃ v, pval !! i = Some v ∧ flt v threshold = true)
  ∧ (below ≠ [] → select_best_features pval threshold = below)
  ∧ (below = [] →
     ∀ i, i ∈ select_best_features pval threshold
          ↔ ∃ p ps v, pval = p :: ps ∧ pval !! i = Some v
                      ∧ feq v (array_min p ps) = true)
  ∧ (Forall (λ v, is_nan v = false) pval → below = [] →
     ∀ i, i ∈ select_best_features pval threshold
          ↔ ∃ q, pval !! i = Some (Fin q)
                 ∧ ∀ j q', pval !! j = Some (Fin q') → (q <= q')%Q)
  ∧ (Forall (λ v, is_nan v = false) pval → pval ≠ [] →
     select_best_features pval threshold ≠ []).
Proof.
  intros below. split; [intros i; apply indices_where_spec |].
  split.
  { intros Hne. unfold select_best_features. fold below.
    by destruct below. }
  split.
  { intros Hnil i. unfold select_best_features. fold below. rewrite Hnil.
    simpl. destruct pval as [|p ps].
    - split; [by intros H; inversion H | by intros (? & ? & ? & ? & _)].
    - rewrite indices_where_spec. split.
      + intros (v & Hv & Heq). by exists p, ps, v.
      + intros (p' & ps' & v & Hp & Hv & Heq). inversion Hp; subst.
        by exists v. }
  split.
  { intros Hfin Hnil i. unfold select_best_features. fold below.
    rewrite Hnil. simpl. destruct pval as [|p ps].
    - split; [by intros H; inversion H | by intros (? & ? & _)].
    - by apply fallback_spec. }
  apply select_best_features_finite_nonempty.
Qed.

(** ** The stop-word pass *)

Lemma filter_ext_in {A} (P Q : A → Prop) `{∀ x, Decision (P x)}
    `{∀ x, Decision (Q x)} (l : list A) :
  (∀ x, x ∈ l → (P x ↔ Q x)) → filter P l = filter Q l.
Proof.
  induction l as [|a l IH]; intros Hext; [done |].
  assert (filter P l = filter Q l) as IH'
    by (apply IH; intros x Hx; apply Hext; by right).
  destruct (decide (P a)) as [HP | HP].
  - rewrite !filter_cons_True; [by rewrite IH' | | done].
    apply Hext; [by left | done].
  - rewrite !filter_cons_False; [done | | done].
    intros HQ. apply HP, Hext; [by left | done].
Qed.

Lemma filter_all {A} (P : A → Prop) `{∀ x, Decision (P x)} (l : list A) :
  (∀ x, x ∈ l → P x) → filter P l = l.
Proof.
  induction l as [|a l IH]; intros HP; [done |].
  rewrite filter_cons_True by (apply HP; by left).
  rewrite IH; [done |]. intros x Hx. apply HP. by right.
Qed.

(** On a list without repetition [list.remove] is a filter. *)
Lemma list_remove_NoDup (x : nat) (l : list nat) :
  NoDup l → x ∈ l → list_remove x l = Returns (filter (λ j, j ≠ x) l).
Proof.
  induction l as [|y l IH]; intros Hnd Hin; [by inversion Hin |].
  apply NoDup_cons in Hnd as [Hy Hnd]. simpl.
  destruct (decide (x = y)) as [-> | Hne].
  - rewrite filter_cons_False by (intros Hc; by apply Hc).
    rewrite filter_all; [done |]. intros j Hj ->. done.
  - apply elem_of_cons in Hin as [Hin | Hin]; [done |].
    rewrite (IH Hnd Hin). simpl.
    by rewrite filter_cons_True by (intros Hc; by apply Hne).
Qed.

Lemma kept_by_spec (stop_words : gset string) (threshold : pyfloat)
    (feature_names : list (nat * (string * pyfloat))) (i : nat) :
  kept_by stop_words threshold feature_names i = true
  ↔ ∀ word p, (i, (word, p)) ∈ feature_names →
              demoted stop_words threshold word p = false.
Proof.
  unfold kept_by. rewrite forallb_forall. split.
  - intros H word p Hin. apply list_elem_of_In, H in Hin.
    rewrite bool_decide_eq_true_2 in Hin by done. simpl in Hin.
    by apply negb_true_iff in Hin.
  - intros H [feat [word p]] Hin. apply list_elem_of_In in Hin.
    destruct (decide (feat = i)) as [-> | Hne].
    + by rewrite (H word p Hin), andb_false_r.
    + by rewrite bool_decide_eq_false_2.
Qed.

(** The loop removes from the list, in place and in the order of the
    dictionary, yet what is left is the list filtered: nothing is skipped. *)
Lemma demote_loop_kept (stop_words : gset string) (threshold : pyfloat)
    (feature_names : list (nat * (string * pyfloat))) (best : list nat) :
  NoDup feature_names.*1 →
  (∀ feat, feat ∈ feature_names.*1 → feat ∈ best) →
  NoDup best →
  demote_loop stop_words threshold feature_names best
  = (filter (λ i, kept_by stop_words threshold feature_names i = true) best,
     Returns tt).
Proof.
  revert best.
  induction feature_names as [|[feat [word p]] feature_names IH];
    intros best Hnd Hsub Hbest; simpl.
  - by rewrite filter_all.
  - apply NoDup_cons in Hnd as [Hfeat Hnd].
    destruct (demoted stop_words threshold word p) eqn:Hd.
    + rewrite list_remove_NoDup by (done || apply Hsub; by left).
      rewrite IH; [| done | | by apply NoDup_filter].
      * rewrite list_filter_filter. f_equal. apply list_filter_iff.
        intros i. rewrite andb_true_r, andb_true_iff, negb_true_iff.
        rewrite bool_decide_eq_false. naive_solver.
      * intros feat' Hin. apply list_elem_of_filter. split.
        -- by intros ->.
        -- apply Hsub. by right.
    + rewrite IH; [| done | | done].
      * f_equal. apply list_filter_iff. intros i.
        by rewrite andb_false_r.
      * intros feat' Hin. apply Hsub. by right.
Qed.

Lemma feature_names_loop_spec (index_words : gmap nat string)
    (pval : list pyfloat) (best : list nat)
    (acc feature_names : gmap nat (string * pyfloat)) :
  feature_names_loop index_words pval best acc = Returns feature_names →
  ∀ i, (i ∈ best →
        ∃ word p, index_words !! i = Some word ∧ pval !! i = Some p
                  ∧ feature_names !! i = Some (word, p))
       ∧ (i ∉ best → feature_names !! i = acc !! i).
Proof.
  revert acc. induction best as [|i0 best IH]; intros acc Hloop i; simpl in *.
  - inversion Hloop; subst. split; [by intros H; inversion H | done].
  - destruct (index_words !! i0) as [word|] eqn:Hw; [| done].
    destruct (pval !! i0) as [p|] eqn:Hp; [| done].
    destruct (IH _ Hloop i) as [Hin Hout].
    destruct (decide (i ∈ best)) as [Hi | Hi].
    + split; [intros _; by apply Hin | intros Hc; destruct Hc; by right].
    + split.
      * intros Hi0. apply elem_of_cons in Hi0 as [-> | Hi0]; [| done].
        exists word, p. rewrite (Hout Hi), lookup_insert_eq. done.
      * intros Hnot. rewrite (Hout Hi), lookup_insert_ne; [done |].
        intros ->. apply Hnot. by left.
Qed.

(** The stop-word pass of [fit] computes the filter of the specification. *)
Lemma demote_loop_is_filter (stop_words : gset string) (threshold : pyfloat)
    (index_words : gmap nat string) (pval : list pyfloat) (best : list nat)
    (feature_names : gmap nat (string * pyfloat)) :
  NoDup best →
  feature_names_loop index_words pval best ∅ = Returns feature_names →
  demote_loop stop_words threshold (map_to_list feature_names) best
  = (demotion_filter stop_words threshold index_words pval best, Returns tt).
Proof.
  intros Hnd Hloop.
  pose proof (feature_names_loop_spec _ _ _ _ _ Hloop) as Hspec.
  rewrite demote_loop_kept; [| apply NoDup_fst_map_to_list | | done].
  - f_equal. unfold demotion_filter. apply filter_ext_in. intros i Hi.
    destruct (Hspec i) as [Hin _].
    destruct (Hin Hi) as (word & p & Hw & Hp & Hf).
    unfold survives. rewrite Hw, Hp, kept_by_spec, negb_true_iff. split.
    + intros H. apply H. by apply elem_of_map_to_list.
    + intros H word' p' Hin'. apply elem_of_map_to_list in Hin'. congruence.
  - intros feat Hfeat. apply list_elem_of_fmap in Hfeat as ([f wp] & -> & Hin).
    apply elem_of_map_to_list in Hin. simpl.
    destruct (decide (f ∈ best)) as [Hf | Hf]; [done |].
    destruct (Hspec f) as [_ Hout]. rewrite (Hout Hf), lookup_empty in Hin.
    done.
Qed.

(** What a [fit] that returns [self] went through, and the object it leaves:
    the vectorizer's outputs, the p-values, a word and a p-value for every
    index selected, and the selection filtered by the stop-word pass. *)
Lemma fit_returns_self_inv (self self' : Featurizer) (dataset : Dataset)
    (queries : list string) (y : list nat) :
  fit self dataset queries y = (self', Returns ReturnSelf) →
  ∃ docs vocabulary idf X pval,
    preprocess_queries
      (set_entities self
         (normalized_entities (language self)
            (get_utterances_entities dataset))) queries = Returns docs
    ∧ sk_fit_transform (tokenizer_language (tfidf_vectorizer self)) docs
      = Returns (vocabulary, idf, X)
    ∧ chi2 X y = Returns pval
    ∧ (∀ i, i ∈ select_best_features pval (pvalue_threshold self) →
            ∃ word p, list_index_words vocabulary !! i = Some word
                      ∧ pval !! i = Some p)
    ∧ self'
      = {| language := language self;
           tfidf_vectorizer :=
             {| tokenizer_language :=
                  tokenizer_language (tfidf_vectorizer self);
                vocabulary_ := Some vocabulary;
                _idf_diag := Some idf |};
           best_features :=
             Some (demotion_filter (get_stop_words (language self))
                     (pvalue_threshold self) (list_index_words vocabulary)
                     pval
                     (select_best_features pval (pvalue_threshold self)));
           pvalue_threshold := pvalue_threshold self;
           entity_utterances_to_entity_names :=
             Some (normalized_entities (language self)
                     (get_utterances_entities dataset)) |}.
Proof.
  unfold fit. simpl. destruct (all_queries_empty _ _); [done |].
  unfold fit_vectorizer_and_select, vectorizer_fit_transform. simpl.
  destruct (preprocess_queries _ queries) as [docs|] eqn:Hdocs; [| done].
  destruct (sk_fit_transform _ docs) as [[[vocabulary idf] X]|] eqn:Hsk;
    [| done].
  simpl. destruct (chi2 X y) as [pval|] eqn:Hchi; [| done].
  destruct (feature_names_loop _ pval _ ∅) as [feature_names|] eqn:Hloop;
    [| done].
  rewrite (demote_loop_is_filter _ _ _ _ _ _
             (select_best_features_NoDup _ _) Hloop).
  intros Heq. inversion Heq; subst. clear Heq.
  exists docs, vocabulary, idf, X, pval. repeat split; try done.
  intros i Hi.
  destruct (feature_names_loop_spec _ _ _ _ _ Hloop i) as [Hin _].
  destruct (Hin Hi) as (word & p & Hw & Hp & _). by exists word, p.
Qed.

Lemma Qltb_lt (x y : Q) : Qltb x y = true ↔ (x < y)%Q.
Proof.
  unfold Qltb. rewrite negb_true_iff. split.
  - intros H. destruct (Qlt_le_dec x y) as [Hlt | Hle]; [done |].
    apply Qle_bool_iff in Hle. congruence.
  - intros H. destruct (Qle_bool y x) eqn:E; [| done].
    apply Qle_bool_iff in E. by apply Qlt_not_le in H.
Qed.






(** ** Serialization *)

Lemma entity_index_round_trip (index : gmap string (gset string)) :
  list_to_set <$> (elements <$> index) = index.
Proof.
  rewrite <- map_fmap_compose. rewrite <- (map_fmap_id index) at 2.
  apply map_fmap_ext. intros k names _. simpl.
  apply list_to_set_elements_L.
Qed.

(** A Featurizer that has a fitted default vectorizer and an entity index is
    reconstructed field for field. *)
Lemma from_dict_to_dict (self : Featurizer)
    (vocabulary : gmap string nat) (idf : list pyfloat)
    (index : gmap string (gset string)) :
  tokenizer_language (tfidf_vectorizer self) = language self →
  vocabulary_ (tfidf_vectorizer self) = Some vocabulary →
  _idf_diag (tfidf_vectorizer self) = Some idf →
  entity_utterances_to_entity_names self = Some index →
  ∃ obj_dict, to_dict self = Returns obj_dict
              ∧ from_dict obj_dict = Returns self.
Proof.
  intros Hl Hv Hi He. unfold to_dict. rewrite Hv, Hi, He.
  eexists. split; [done |].
  unfold from_dict, from_iso_code. simpl.
  rewrite language_of_iso_code_iso_code. simpl.
  unfold Featurizer_init, deserialize_tfidf_vectorizer. simpl.
  rewrite entity_index_round_trip.
  destruct self as [l [tl v d] b t e]. simpl in *. by subst.
Qed.

(** C1. A Featurizer built on its language's default vectorizer and fitted
    with success serializes, and the Featurizer read back from its
    dictionary has the same language, vocabulary, IDF values, selected
    features and entity index, and transforms every list of queries to the
    same matrix. *)
Theorem to_dict_from_dict_round_trip (self F : Featurizer)
    (dataset : Dataset) (queries : list string) (y : list nat) :
  tokenizer_language (tfidf_vectorizer self) = language self →
  fit self dataset queries y = (F, Returns ReturnSelf) →
  ∃ obj_dict F',
    to_dict F = Returns obj_dict
    ∧ from_dict obj_dict = Returns F'
    ∧ language F' = language F
    ∧ vocabulary_ (tfidf_vectorizer F') = vocabulary_ (tfidf_vectorizer F)
    ∧ _idf_diag (tfidf_vectorizer F') = _idf_diag (tfidf_vectorizer F)
    ∧ best_features F' = best_features F
    ∧ entity_utterances_to_entity_names F'
      = entity_utterances_to_entity_names F
    ∧ ∀ Q, transform F' Q = transform F Q.
Proof.
  intros Hl Hfit.
  apply fit_returns_self_inv in Hfit
    as (docs & vocabulary & idf & X & pval & _ & _ & _ & _ & ->).
  edestruct from_dict_to_dict as (obj_dict & Hto & Hfrom);
    [| | | | exists obj_dict; eexists; split; [exact Hto |];
             split; [exact Hfrom | done]]; done.
Qed.

End Properties.

(** * Further properties of the module *)

Section FurtherProperties.
Context `{C : Collaborators}.

(** ** The entity index, key by key *)

Lemma utterances_of_spec (d : EntityData) (u : string) :
  u ∈ utterances_of d
  ↔ ∃ ent, ent ∈ ent_data d
           ∧ (u = ent_value ent
              ∨ (use_synonyms d = true ∧ u ∈ ent_synonyms ent)).
Proof.
  unfold utterances_of. destruct (use_synonyms d).
  - rewrite list_elem_of_bind. split.
    + intros (ent & Hu & Hent). exists ent. split; [done |].
      apply elem_of_cons in Hu as [-> | Hu]; [by left | by right].
    + intros (ent & Hent & [-> | [_ Hu]]); exists ent;
        (split; [| done]); [by left | by right].
  - rewrite list_elem_of_fmap. split.
    + intros (ent & -> & Hent). exists ent. split; [done | by left].
    + intros (ent & Hent & [-> | [? _]]); [by exists ent | done].
Qed.

Lemma add_names_nonempty (n : string) (us : list string)
    (acc : gmap string (gset string)) :
  (∀ u s, acc !! u = Some s → s ≠ ∅) →
  ∀ u s, foldl (λ acc u, add_name u n acc) acc us !! u = Some s → s ≠ ∅.
Proof.
  revert acc. induction us as [|u' us IH]; intros acc Hacc; simpl; [done |].
  apply IH. intros u s. unfold add_name.
  destruct (decide (u' = u)) as [-> | Hne].
  - rewrite lookup_insert_eq. intros [= <-]. set_solver.
  - rewrite lookup_insert_ne by done. apply Hacc.
Qed.

Lemma utterances_entities_nonempty (l : list (string * EntityData))
    (acc : gmap string (gset string)) :
  (∀ u s, acc !! u = Some s → s ≠ ∅) →
  ∀ u s,
    foldl (λ entities_utterances '(entity_name, entity_data),
             if is_builtin_entity entity_name then entities_utterances
             else foldl (λ acc u, add_name u entity_name acc)
                        entities_utterances (utterances_of entity_data))
          acc l !! u = Some s →
    s ≠ ∅.
Proof.
  revert acc. induction l as [|[n d] l IH]; intros acc Hacc; simpl; [done |].
  apply IH. destruct (is_builtin_entity n); [done |].
  by apply add_names_nonempty.
Qed.

Lemma normalized_entities_nonempty (l : Language)
    (items : list (string * gset string))
    (acc : gmap string (gset string)) :
  (∀ k s, acc !! k = Some s → s ≠ ∅) →
  (∀ u names, (u, names) ∈ items → names ≠ ∅) →
  ∀ k s,
    foldl (λ entities '(u, entities_names),
             let key := normalize_stem u l in
             <[key := default ∅ (entities !! key) ∪ entities_names]>
               entities)
          acc items !! k = Some s →
    s ≠ ∅.
Proof.
  revert acc. induction items as [|[u names] items IH];
    intros acc Hacc Hitems; simpl; [done |].
  apply IH.
  - intros k s. destruct (decide (normalize_stem u l = k)) as [<- | Hne].
    + rewrite lookup_insert_eq. intros [= <-].
      assert (names ≠ ∅) by (apply (Hitems u); by left). set_solver.
    + rewrite lookup_insert_ne by done. apply Hacc.
  - intros u' names' Hin. apply (Hitems u'). by right.
Qed.

(** X1. An utterance is a key of [get_utterances_entities] with a set that is
    never empty and holds exactly the entities, not builtin, that list the
    utterance as a value or, when they use synonyms, as a synonym. *)
Theorem get_utterances_entities_lookup (dataset : Dataset) (u : string)
    (names : gset string) :
  get_utterances_entities dataset !! u = Some names →
  names ≠ ∅
  ∧ ∀ x, x ∈ names
         ↔ ∃ d ent, ds_entities dataset !! x = Some d
                    ∧ is_builtin_entity x = false
                    ∧ ent ∈ ent_data d
                    ∧ (u = ent_value ent
                       ∨ (use_synonyms d = true ∧ u ∈ ent_synonyms ent)).
Proof.
  intros Hu. split.
  - revert Hu. unfold get_utterances_entities.
    apply utterances_entities_nonempty. intros u' s.
    by rewrite lookup_empty.
  - intros x.
    pose proof (get_utterances_entities_spec dataset u x) as Hspec.
    rewrite Hu in Hspec. simpl in Hspec. rewrite Hspec. split.
    + intros (d & Hd & Hb & Hin). apply utterances_of_spec in Hin
        as (ent & Hent & Hor). by exists d, ent.
    + intros (d & ent & Hd & Hb & Hent & Hor). exists d.
      split; [done |]. split; [done |]. apply utterances_of_spec.
      by exists ent.
Qed.

(** X2. The keys of the index that [fit] stores are exactly the normalized
    and stemmed utterances of the entities that are not builtin: a dataset
    without such an utterance gives an empty index, and utterances that
    normalize to one key share one entry. *)
Theorem entity_index_keys (l : Language) (dataset : Dataset) (k : string) :
  is_Some (normalized_entities l (get_utterances_entities dataset) !! k)
  ↔ ∃ x d u, ds_entities dataset !! x = Some d
             ∧ is_builtin_entity x = false
             ∧ u ∈ utterances_of d
             ∧ normalize_stem u l = k.
Proof.
  split.
  - intros [s Hs].
    assert (s ≠ ∅) as Hne.
    { revert Hs. unfold normalized_entities.
      apply normalized_entities_nonempty.
      - intros k' s'. by rewrite lookup_empty.
      - intros u names Hin. apply elem_of_map_to_list in Hin.
        revert Hin. unfold get_utterances_entities.
        apply utterances_entities_nonempty. intros u' s'.
        by rewrite lookup_empty. }
    apply set_choose_L in Hne as [x Hx]. exists x.
    apply (entity_index_spec l dataset k x). by rewrite Hs.
  - intros (x & d & u & H).
    assert (x ∈ default ∅
                  (normalized_entities l (get_utterances_entities dataset)
                   !! k)) as Hin
      by (apply entity_index_spec; by exists d, u).
    destruct (normalized_entities l (get_utterances_entities dataset) !! k);
      [by eexists | set_solver].
Qed.

(** ** Preprocessing *)

Lemma entity_features_loop_app (m : gmap string (gset string))
    (ngrams acc : list string) :
  entity_features_loop (Some m) ngrams acc
  = Returns
      (acc ++
       (ngrams ≫= λ ngram,
          entity_name_to_feature <$> elements (default ∅ (m !! ngram))))%list.
Proof.
  revert acc. induction ngrams as [|ngram ngrams IH]; intros acc; simpl.
  - by rewrite app_nil_r.
  - rewrite IH. by rewrite <- app_assoc.
Qed.

(** X3. With an index, [get_dataset_entities_features] never raises, and its
    features are exactly the features of the entity names that the index
    gives for some n-gram of the tokens. *)
Theorem get_dataset_entities_features_spec (tokens : list string)
    (m : gmap string (gset string)) :
  ∃ features,
    get_dataset_entities_features tokens (Some m) = Returns features
    ∧ ∀ f, f ∈ features
           ↔ ∃ ngram names name,
               ngram ∈ get_all_ngrams tokens
               ∧ m !! ngram = Some names
               ∧ name ∈ names
               ∧ f = entity_name_to_feature name.
Proof.
  unfold get_dataset_entities_features. rewrite entity_features_loop_app.
  eexists. split; [done |]. intros f. simpl. rewrite list_elem_of_bind.
  split.
  - intros (ngram & Hf & Hng).
    apply list_elem_of_fmap in Hf as (name & -> & Hname).
    apply elem_of_elements in Hname.
    destruct (m !! ngram) as [names|] eqn:E; [| set_solver].
    by exists ngram, names, name.
  - intros (ngram & names & name & Hng & Hm & Hname & ->).
    exists ngram. split; [| done]. apply list_elem_of_fmap.
    exists name. split; [done |]. apply elem_of_elements.
    by rewrite Hm.
Qed.



Lemma traverse_pointwise {A B} (f : A → outcome B) (l : list A)
    (bs : list B) :
  traverse f l = Returns bs →
  length bs = length l
  ∧ ∀ i a, l !! i = Some a → ∃ b, f a = Returns b ∧ bs !! i = Some b.
Proof.
  revert bs. induction l as [|a l IH]; intros bs; simpl.
  - intros [= <-]. split; [done | intros i a H; by destruct i].
  - destruct (f a) as [b|] eqn:Hb; [| done]. simpl.
    destruct (traverse f l) as [bs'|]; [| done]. simpl.
    intros [= <-]. destruct (IH bs' eq_refl) as [Hlen Hpt].
    split; [simpl; by rewrite Hlen |].
    intros [|i] a' Hi; simpl in *.
    + inversion Hi; subst. by exists b.
    + by apply Hpt.
Qed.

(** X6. When [preprocess_queries] returns, it returns one pseudo-document
    per query, in the order of the queries: the i-th one is the encoded
    [preprocess_query] of the i-th query under the language and the index of
    the Featurizer. *)
Theorem preprocess_queries_pointwise (self : Featurizer)
    (queries docs : list string) :
  preprocess_queries self queries = Returns docs →
  length docs = length queries
  ∧ ∀ i q, queries !! i = Some q →
      ∃ d, preprocess_query q (language self)
             (entity_utterances_to_entity_names self) = Returns d
           ∧ docs !! i = Some (encode_utf8 d).
Proof.
  intros H. apply traverse_pointwise in H as [Hlen Hpt].
  split; [done |]. intros i q Hq.
  destruct (Hpt i q Hq) as (b & Hb & Hi).
  destruct (preprocess_query q _ _) as [d|]; [| done].
  simpl in Hb. inversion Hb; subst. by exists d.
Qed.

(** ** The selection as a list *)

Lemma indices_from_sorted (start : nat) (keep : pyfloat → bool)
    (l : list pyfloat) :
  StronglySorted lt (indices_from start keep l).
Proof.
  revert start. induction l as [|v l IH]; intros start; simpl.
  - constructor.
  - destruct (keep v); [| apply IH].
    constructor; [apply IH |].
    apply Forall_forall. intros i Hi.
    apply indices_from_spec in Hi as (? & Hle & _). lia.
Qed.

Lemma StronglySorted_filter_lt (P : nat → Prop) `{∀ x, Decision (P x)}
    (l : list nat) :
  StronglySorted lt l → StronglySorted lt (filter P l).
Proof.
  induction 1 as [|a l Hs IH Hall]; [constructor |].
  destruct (decide (P a)).
  - rewrite filter_cons_True by done. constructor; [done |].
    apply Forall_forall. intros i Hi.
    apply list_elem_of_filter in Hi as [_ Hi].
    rewrite Forall_forall in Hall. by apply Hall.
  - by rewrite filter_cons_False.
Qed.

Lemma select_best_features_increasing (pval : list pyfloat)
    (threshold : pyfloat) :
  StronglySorted lt (select_best_features pval threshold).
Proof.
  unfold select_best_features, indices_where.
  destruct (length _ =? 0)%nat; [| apply indices_from_sorted].
  destruct pval; [constructor | apply indices_from_sorted].
Qed.

(** X7. The selection is a strictly increasing list of positions of the
    p-value array: it has no repetition and no index out of the array,
    whatever the p-values and the threshold. *)
Theorem select_best_features_sorted (pval : list pyfloat)
    (threshold : pyfloat) :
  StronglySorted lt (select_best_features pval threshold)
  ∧ ∀ i, i ∈ select_best_features pval threshold → (i < length pval)%nat.
Proof.
  split; [apply select_best_features_increasing |].
  unfold select_best_features, indices_where.
  - intros i Hi.
    assert (∃ keep, i ∈ indices_from 0 keep pval) as [keep Hk].
    { destruct (length _ =? 0)%nat; [| by eexists].
      destruct pval; [by inversion Hi | by eexists]. }
    apply indices_from_spec in Hk as (v & _ & Hv & _).
    rewrite Nat.sub_0_r in Hv. by apply lookup_lt_Some in Hv.
Qed.

Lemma select_best_features_cases (pval : list pyfloat) (threshold : pyfloat) :
  (indices_where (λ v, flt v threshold) pval ≠ []
   ∧ select_best_features pval threshold
     = indices_where (λ v, flt v threshold) pval)
  ∨ (indices_where (λ v, flt v threshold) pval = []
     ∧ select_best_features pval threshold
       = match pval with
         | [] => []
         | p :: ps => indices_where (λ val, feq val (array_min p ps)) pval
         end).
Proof.
  unfold select_best_features.
  destruct (indices_where (λ v, flt v threshold) pval); [by right | by left].
Qed.

(** An index that holds the least p-value is selected under every
    threshold. *)
Lemma least_selected (pval : list pyfloat) (threshold : pyfloat) (i : nat)
    (q : Q) :
  Forall (λ v, is_nan v = false) pval →
  pval !! i = Some (Fin q) →
  (∀ j q', pval !! j = Some (Fin q') → (q <= q')%Q) →
  i ∈ select_best_features pval threshold.
Proof.
  intros Hfin Hi Hmin.
  destruct (select_best_features_cases pval threshold)
    as [[Hne ->] | [Hnil ->]].
  - apply indices_where_spec. exists (Fin q). split; [done |].
    destruct (indices_where (λ v, flt v threshold) pval) as [|j below] eqn:E;
      [done |].
    assert (j ∈ j :: below) as Hj by (by left).
    rewrite <- E in Hj. apply indices_where_spec in Hj as (v & Hv & Hlt).
    destruct v as [|q'], threshold as [|t]; try done. simpl in *.
    apply Qltb_lt. apply Qltb_lt in Hlt.
    eapply Qle_lt_trans; [by apply (Hmin j) | done].
  - destruct pval as [|p ps]; [done |].
    apply fallback_spec; [done |]. by exists q.
Qed.

(** X8. When no p-value is NaN, every index that holds the least p-value is
    selected, whatever the threshold is, NaN included. *)
Theorem least_pvalue_always_selected (pval : list pyfloat)
    (threshold : pyfloat) (i : nat) (q : Q) :
  Forall (λ v, is_nan v = false) pval →
  pval !! i = Some (Fin q) →
  (∀ j q', pval !! j = Some (Fin q') → (q <= q')%Q) →
  i ∈ select_best_features pval threshold.
Proof. apply least_selected. Qed.

(** X9. When no p-value is NaN the selection grows with the threshold: an
    index selected under a threshold is selected under every larger one. *)
Theorem select_best_features_monotone (pval : list pyfloat) (t t' : Q)
    (i : nat) :
  Forall (λ v, is_nan v = false) pval →
  (t <= t')%Q →
  i ∈ select_best_features pval (Fin t) →
  i ∈ select_best_features pval (Fin t').
Proof.
  intros Hfin Hle Hi.
  destruct (select_best_features_cases pval (Fin t))
    as [[Hne Heq] | [Hnil Heq]]; rewrite Heq in Hi.
  - apply indices_where_spec in Hi as (v & Hv & Hlt).
    assert (i ∈ indices_where (λ v, flt v (Fin t')) pval) as Hi'.
    { apply indices_where_spec. exists v. split; [done |].
      destruct v as [|q]; [done |]. simpl in *.
      apply Qltb_lt. apply Qltb_lt in Hlt.
      eapply Qlt_le_trans; done. }
    destruct (select_best_features_cases pval (Fin t'))
      as [[_ ->] | [Hnil' _]]; [done |].
    rewrite Hnil' in Hi'. inversion Hi'.
  - destruct pval as [|p ps]; [by inversion Hi |].
    apply fallback_spec in Hi as (q & Hq & Hmin); [| done].
    by apply (least_selected (p :: ps) (Fin t') i q).
Qed.

(** ** The table from indices to words *)

Lemma list_index_words_fold (items : list (string * nat))
    (acc : gmap nat string) (i : nat) :
  (∀ w, foldl (λ m '(x, i), <[i := x]> m) acc items !! i = Some w →
        acc !! i = Some w ∨ (w, i) ∈ items)
  ∧ (is_Some (foldl (λ m '(x, i), <[i := x]> m) acc items !! i)
     ↔ is_Some (acc !! i) ∨ ∃ w, (w, i) ∈ items).
Proof.
  revert acc. induction items as [|[x0 i0] items IH]; intros acc; simpl.
  - split; [by left |]. split; [by left |].
    intros [H | [w H]]; [done | by inversion H].
  - destruct (IH (<[i0 := x0]> acc)) as [IH1 IH2]. split.
    + intros w Hw. destruct (IH1 w Hw) as [H | H].
      * destruct (decide (i0 = i)) as [-> | Hne].
        -- rewrite lookup_insert_eq in H. inversion H; subst.
           right. by left.
        -- rewrite lookup_insert_ne in H by done. by left.
      * right. by right.
    + rewrite IH2. destruct (decide (i0 = i)) as [-> | Hne].
      * rewrite lookup_insert_eq. split; [| by left; eexists].
        intros _. right. exists x0. by left.
      * rewrite lookup_insert_ne by done. split.
        -- intros [H | [w H]]; [by left | right]. exists w. by right.
        -- intros [H | [w H]]; [by left |].
           apply elem_of_cons in H as [H | H]; [congruence |].
           right. by exists w.
Qed.

Lemma list_index_words_lookup (vocabulary : gmap string nat) (i : nat)
    (w : string) :
  list_index_words vocabulary !! i = Some w → vocabulary !! w = Some i.
Proof.
  intros Hw.
  destruct (list_index_words_fold (map_to_list vocabulary) ∅ i) as [Hf _].
  destruct (Hf w Hw) as [H | H]; [by rewrite lookup_empty in H |].
  by apply elem_of_map_to_list in H.
Qed.

(** X10. [list_index_words] sends an index only to a term that the
    vocabulary sends to that index, and it knows exactly the indices that
    the vocabulary uses; when the vocabulary gives every term its own index
    it is the inverse of the vocabulary. *)
Theorem list_index_words_spec (vocabulary : gmap string nat) :
  (∀ i w, list_index_words vocabulary !! i = Some w →
          vocabulary !! w = Some i)
  ∧ (∀ i, is_Some (list_index_words vocabulary !! i)
          ↔ ∃ w, vocabulary !! w = Some i)
  ∧ ((∀ w w' i, vocabulary !! w = Some i → vocabulary !! w' = Some i →
                w = w') →
     ∀ i w, list_index_words vocabulary !! i = Some w
            ↔ vocabulary !! w = Some i).
Proof.
  unfold list_index_words.
  pose proof (list_index_words_lookup vocabulary) as H1.
  unfold list_index_words in H1.
  assert (∀ i, is_Some (foldl (λ m '(x, i), <[i := x]> m)
                          (∅ : gmap nat string)
                          (map_to_list vocabulary) !! i)
               ↔ ∃ w, vocabulary !! w = Some i) as H2.
  { intros i.
    destruct (list_index_words_fold (map_to_list vocabulary) ∅ i)
      as [_ ->].
    rewrite lookup_empty. split.
    - intros [[? H] | [w H]]; [done |]. exists w.
      by apply elem_of_map_to_list in H.
    - intros [w H]. right. exists w. by apply elem_of_map_to_list. }
  split; [done |]. split; [done |].
  intros Hinj i w. split; [apply H1 |].
  intros Hw. destruct (proj2 (H2 i)) as [w' Hw']; [by exists w |].
  rewrite Hw'. f_equal. apply (Hinj w' w i); [by apply H1 | done].
Qed.

(** X11. After a [fit] that returns [self], [best_features] is a strictly
    increasing list and each of its indices is the index of a term of the
    learned vocabulary. *)
Theorem fit_best_features_wellformed (self self' : Featurizer)
    (dataset : Dataset) (queries : list string) (y : list nat) :
  fit self dataset queries y = (self', Returns ReturnSelf) →
  ∃ vocabulary best,
    vocabulary_ (tfidf_vectorizer self') = Some vocabulary
    ∧ best_features self' = Some best
    ∧ StronglySorted lt best
    ∧ ∀ i, i ∈ best → ∃ word, vocabulary !! word = Some i.
Proof.
  intros Hfit.
  apply fit_returns_self_inv in Hfit
    as (docs & vocabulary & idf & X & pval & _ & _ & _ & Hsel & ->).
  eexists _, _. simpl. split; [done |]. split; [done |]. split.
  - apply StronglySorted_filter_lt, select_best_features_increasing.
  - intros i Hi. apply list_elem_of_filter in Hi as [_ Hi].
    destruct (Hsel i Hi) as (word & p & Hw & _). exists word.
    by apply list_index_words_lookup.
Qed.

(** ** The outcomes of [fit] *)

Lemma select_best_features_in_range (pval : list pyfloat)
    (threshold : pyfloat) (i : nat) :
  i ∈ select_best_features pval threshold → is_Some (pval !! i).
Proof.
  intros Hi.
  destruct (select_best_features_cases pval threshold) as [[_ Heq] | [_ Heq]];
    rewrite Heq in Hi.
  - apply indices_where_spec in Hi as (v & Hv & _). by eexists.
  - destruct pval; [by inversion Hi |].
    apply indices_where_spec in Hi as (v & Hv & _). by eexists.
Qed.

Lemma feature_names_loop_returns (index_words : gmap nat string)
    (pval : list pyfloat) (best : list nat)
    (acc : gmap nat (string * pyfloat)) :
  (∀ i, i ∈ best → is_Some (index_words !! i) ∧ is_Some (pval !! i)) →
  ∃ feature_names,
    feature_names_loop index_words pval best acc = Returns feature_names.
Proof.
  revert acc. induction best as [|i best IH]; intros acc H; simpl.
  - by eexists.
  - destruct (H i) as [[word ->] [p ->]]; [by left |].
    apply IH. intros j Hj. apply H. by right.
Qed.

Lemma feature_names_loop_key_error (index_words : gmap nat string)
    (pval : list pyfloat) (best : list nat)
    (acc : gmap nat (string * pyfloat)) :
  (∀ i, i ∈ best → is_Some (pval !! i)) →
  (∃ i, i ∈ best ∧ index_words !! i = None) →
  feature_names_loop index_words pval best acc = Raises KeyError.
Proof.
  revert acc. induction best as [|i best IH]; intros acc Hp (j & Hj & Hn).
  - by inversion Hj.
  - simpl. destruct (index_words !! i) as [word|] eqn:Hw; [| done].
    destruct (Hp i) as [p ->]; [by left |].
    apply IH.
    + intros k Hk. apply Hp. by right.
    + apply elem_of_cons in Hj as [-> | Hj]; [congruence |]. by exists j.
Qed.

Lemma preprocess_queries_set_entities (self1 self2 : Featurizer)
    (index : gmap string (gset string)) (queries : list string) :
  language self1 = language self2 →
  preprocess_queries (set_entities self1 index) queries
  = preprocess_queries (set_entities self2 index) queries.
Proof. intros H. unfold preprocess_queries. simpl. by rewrite H. Qed.

Lemma fit_nondegenerate (self self' : Featurizer) (dataset : Dataset)
    (queries : list string) (y : list nat) :
  fit self dataset queries y = (self', Returns ReturnSelf) →
  all_queries_empty (language self) queries = false.
Proof.
  unfold fit. simpl. by destruct (all_queries_empty _ _).
Qed.

(** What suffices for [fit] to return [self], and the object it leaves. *)
Lemma fit_success (self : Featurizer) (dataset : Dataset)
    (queries : list string) (y : list nat) (docs : list string)
    (vocabulary : gmap string nat) (idf pval : list pyfloat) (X : Matrix) :
  all_queries_empty (language self) queries = false →
  preprocess_queries
    (set_entities self
       (normalized_entities (language self)
          (get_utterances_entities dataset))) queries = Returns docs →
  sk_fit_transform (tokenizer_language (tfidf_vectorizer self)) docs
  = Returns (vocabulary, idf, X) →
  chi2 X y = Returns pval →
  (∀ i, i ∈ select_best_features pval (pvalue_threshold self) →
        is_Some (list_index_words vocabulary !! i)) →
  fit self dataset queries y
  = (fitted_state self dataset vocabulary idf pval, Returns ReturnSelf).
Proof.
  intros Hne Hdocs Hsk Hchi Hwords. unfold fit. simpl. rewrite Hne.
  unfold fit_vectorizer_and_select, vectorizer_fit_transform. simpl.
  rewrite Hdocs, Hsk. simpl. rewrite Hchi.
  destruct (feature_names_loop_returns (list_index_words vocabulary) pval
              (select_best_features pval (pvalue_threshold self)) ∅)
    as [feature_names Hloop].
  { intros i Hi. split; [by apply Hwords |].
    by apply select_best_features_in_range in Hi. }
  rewrite Hloop.
  by rewrite (demote_loop_is_filter _ _ _ _ _ _
                (select_best_features_NoDup _ _) Hloop).
Qed.

(** X12. [fit] returns [self] exactly when the corpus is not degenerate, the
    vectorizer and the chi-squared test return, and every selected index is
    the index of a term; in particular neither the lookup of a p-value nor
    [list.remove] in the stop-word pass ever raises. *)
Theorem fit_returns_self_iff (self : Featurizer) (dataset : Dataset)
    (queries : list string) (y : list nat) :
  (fit self dataset queries y).2 = Returns ReturnSelf
  ↔ all_queries_empty (language self) queries = false
    ∧ ∃ docs vocabulary idf X pval,
        preprocess_queries
          (set_entities self
             (normalized_entities (language self)
                (get_utterances_entities dataset))) queries = Returns docs
        ∧ sk_fit_transform (tokenizer_language (tfidf_vectorizer self)) docs
          = Returns (vocabulary, idf, X)
        ∧ chi2 X y = Returns pval
        ∧ ∀ i, i ∈ select_best_features pval (pvalue_threshold self) →
               is_Some (list_index_words vocabulary !! i).
Proof.
  split.
  - intros H.
    destruct (fit self dataset queries y) as [self' r] eqn:Hfit.
    simpl in H. subst r. split; [by apply fit_nondegenerate in Hfit |].
    apply fit_returns_self_inv in Hfit
      as (docs & vocabulary & idf & X & pval & Hd & Hsk & Hchi & Hsel & _).
    exists docs, vocabulary, idf, X, pval. repeat split; try done.
    intros i Hi. destruct (Hsel i Hi) as (word & _ & -> & _). by eexists.
  - intros (Hne & docs & vocabulary & idf & X & pval & Hd & Hsk & Hchi & Hw).
    by rewrite (fit_success _ _ _ _ _ _ _ _ _ Hne Hd Hsk Hchi Hw).
Qed.

(** X13. A [fit] that returns [self] replaces all learned state: the object
    it leaves depends on the language, the tokenizer and the threshold of the
    Featurizer it started from and on nothing it had learned before. Fitting
    two Featurizers that agree on these, and in particular fitting the result
    again on the same data, leaves the same object. *)
Theorem fit_replaces_learned_state (self1 self2 F : Featurizer)
    (dataset : Dataset) (queries : list string) (y : list nat) :
  language self1 = language self2 →
  tokenizer_language (tfidf_vectorizer self1)
  = tokenizer_language (tfidf_vectorizer self2) →
  pvalue_threshold self1 = pvalue_threshold self2 →
  fit self1 dataset queries y = (F, Returns ReturnSelf) →
  fit self2 dataset queries y = (F, Returns ReturnSelf)
  ∧ fit F dataset queries y = (F, Returns ReturnSelf).
Proof.
  intros Hl Ht Hp Hfit.
  pose proof (fit_nondegenerate _ _ _ _ _ Hfit) as Hne.
  apply fit_returns_self_inv in Hfit
    as (docs & vocabulary & idf & X & pval & Hd & Hsk & Hchi & Hsel & ->).
  assert (∀ i, i ∈ select_best_features pval (pvalue_threshold self1) →
               is_Some (list_index_words vocabulary !! i)) as Hw.
  { intros i Hi. destruct (Hsel i Hi) as (word & _ & -> & _). by eexists. }
  split.
  - rewrite (fit_success self2 dataset queries y docs vocabulary idf pval X).
    + unfold fitted_state. by rewrite Hl, Ht, Hp.
    + by rewrite <- Hl.
    + rewrite <- Hl. by rewrite <- (preprocess_queries_set_entities self1).
    + by rewrite <- Ht.
    + done.
    + by rewrite <- Hp.
  - by rewrite (fit_success _ dataset queries y docs vocabulary idf pval X).
Qed.

(** X14. Whatever its outcome, a value or an exception, [fit] leaves the
    language, the threshold and the tokenizer of the vectorizer as they were
    and stores the entity index rebuilt from the dataset. *)
Theorem fit_frame (self : Featurizer) (dataset : Dataset)
    (queries : list string) (y : list nat) :
  language (fit self dataset queries y).1 = language self
  ∧ pvalue_threshold (fit self dataset queries y).1 = pvalue_threshold self
  ∧ tokenizer_language (tfidf_vectorizer (fit self dataset queries y).1)
    = tokenizer_language (tfidf_vectorizer self)
  ∧ entity_utterances_to_entity_names (fit self dataset queries y).1
    = Some (normalized_entities (language self)
              (get_utterances_entities dataset)).
Proof.
  unfold fit. simpl. destruct (all_queries_empty _ _); [done |].
  unfold fit_vectorizer_and_select, vectorizer_fit_transform. simpl.
  destruct (preprocess_queries _ queries) as [docs|]; [| done].
  destruct (sk_fit_transform _ docs) as [[[vocabulary idf] X]|]; [| done].
  simpl. destruct (chi2 X y) as [pval|]; [| done].
  destruct (feature_names_loop _ pval _ ∅) as [feature_names|]; [| done].
  destruct (demote_loop _ _ _ _) as [best [[]|e]]; done.
Qed.

(** X15. [fit] is not atomic when the chi-squared test raises: the exception
    comes out of [fit], the vectorizer has already been replaced by the one
    fitted on the corpus, and [best_features] is still the old one. *)
Theorem fit_chi2_raises (self : Featurizer) (dataset : Dataset)
    (queries : list string) (y : list nat) (docs : list string)
    (vocabulary : gmap string nat) (idf : list pyfloat) (X : Matrix)
    (e : exn) :
  all_queries_empty (language self) queries = false →
  preprocess_queries
    (set_entities self
       (normalized_entities (language self)
          (get_utterances_entities dataset))) queries = Returns docs →
  sk_fit_transform (tokenizer_language (tfidf_vectorizer self)) docs
  = Returns (vocabulary, idf, X) →
  chi2 X y = Raises e →
  (fit self dataset queries y).2 = Raises e
  ∧ vocabulary_ (tfidf_vectorizer (fit self dataset queries y).1)
    = Some vocabulary
  ∧ _idf_diag (tfidf_vectorizer (fit self dataset queries y).1) = Some idf
  ∧ best_features (fit self dataset queries y).1 = best_features self.
Proof.
  intros Hne Hdocs Hsk Hchi. unfold fit. simpl. rewrite Hne.
  unfold fit_vectorizer_and_select, vectorizer_fit_transform. simpl.
  rewrite Hdocs, Hsk. simpl. by rewrite Hchi.
Qed.

(** X16. When the vectorizer raises on the corpus, the exception comes out
    of [fit] and the Featurizer keeps its vectorizer and its
    [best_features]; only the entity index has changed. *)
Theorem fit_vectorizer_raises (self : Featurizer) (dataset : Dataset)
    (queries : list string) (y : list nat) (docs : list string) (e : exn) :
  all_queries_empty (language self) queries = false →
  preprocess_queries
    (set_entities self
       (normalized_entities (language self)
          (get_utterances_entities dataset))) queries = Returns docs →
  sk_fit_transform (tokenizer_language (tfidf_vectorizer self)) docs
  = Raises e →
  fit self dataset queries y
  = (set_entities self
       (normalized_entities (language self)
          (get_utterances_entities dataset)),
     Raises e).
Proof.
  intros Hne Hdocs Hsk. unfold fit. simpl. rewrite Hne.
  unfold fit_vectorizer_and_select, vectorizer_fit_transform. simpl.
  rewrite Hdocs, Hsk. by destruct self as [l [tl v d] b t i].
Qed.

(** X17. When the chi-squared test returns a p-value that selects an index
    that no term of the vocabulary has, [fit] raises [KeyError] while it
    collects the feature names, and [best_features] is left with the whole
    selection, the stop-word pass not having run. *)
Theorem fit_key_error (self : Featurizer) (dataset : Dataset)
    (queries : list string) (y : list nat) (docs : list string)
    (vocabulary : gmap string nat) (idf pval : list pyfloat) (X : Matrix)
    (i : nat) :
  all_queries_empty (language self) queries = false →
  preprocess_queries
    (set_entities self
       (normalized_entities (language self)
          (get_utterances_entities dataset))) queries = Returns docs →
  sk_fit_transform (tokenizer_language (tfidf_vectorizer self)) docs
  = Returns (vocabulary, idf, X) →
  chi2 X y = Returns pval →
  i ∈ select_best_features pval (pvalue_threshold self) →
  (∀ word, vocabulary !! word ≠ Some i) →
  (fit self dataset queries y).2 = Raises KeyError
  ∧ best_features (fit self dataset queries y).1
    = Some (select_best_features pval (pvalue_threshold self)).
Proof.
  intros Hne Hdocs Hsk Hchi Hi Hnone. unfold fit. simpl. rewrite Hne.
  unfold fit_vectorizer_and_select, vectorizer_fit_transform. simpl.
  rewrite Hdocs, Hsk. simpl. rewrite Hchi.
  rewrite feature_names_loop_key_error; [done | |].
  - intros j Hj. by apply select_best_features_in_range in Hj.
  - exists i. split; [done |].
    destruct (list_index_words vocabulary !! i) as [word|] eqn:Hw; [| done].
    apply list_index_words_lookup in Hw. by destruct (Hnone word).
Qed.

(** X18. A [fit] on no query at all counts as a degenerate corpus, since
    [all] of an empty sequence holds: [fit] returns [None] and
    [fit_transform] raises [AttributeError]. *)
Theorem fit_no_query (self : Featurizer) (dataset : Dataset) (y : list nat) :
  (fit self dataset [] y).2 = Returns ReturnNone
  ∧ (fit_transform self dataset [] y).2 = Raises AttributeError.
Proof. done. Qed.

(** ** [transform] and [fit_transform] *)

(** X19. When [fit] returns [self], [fit_transform] preprocesses the queries
    anew with the index that [fit] stored and so hands the fitted vectorizer
    the very documents it was fitted on; its matrix is the vectorizer's,
    restricted to the columns of [best_features]. *)
Theorem fit_transform_after_fit (self F : Featurizer) (dataset : Dataset)
    (queries : list string) (y : list nat) :
  fit self dataset queries y = (F, Returns ReturnSelf) →
  ∃ docs vocabulary idf best,
    preprocess_queries
      (set_entities self
         (normalized_entities (language self)
            (get_utterances_entities dataset))) queries = Returns docs
    ∧ vocabulary_ (tfidf_vectorizer F) = Some vocabulary
    ∧ _idf_diag (tfidf_vectorizer F) = Some idf
    ∧ best_features F = Some best
    ∧ fit_transform self dataset queries y
      = (F,
         let! X := sk_transform (tokenizer_language (tfidf_vectorizer self))
                     vocabulary idf docs in
         select_columns X best).
Proof.
  intros Hfit. unfold fit_transform. rewrite Hfit.
  apply fit_returns_self_inv in Hfit
    as (docs & vocabulary & idf & X & pval & Hd & _ & _ & _ & ->).
  eexists docs, vocabulary, idf, _. split; [done |].
  split; [done |]. split; [done |]. split; [done |].
  f_equal. unfold transform.
  unfold preprocess_queries in *. simpl in *. by rewrite Hd.
Qed.

(** X20. A matrix that [transform] returns has one column per index of
    [best_features] and as many rows as the vectorizer's matrix, each of that
    width; it is returned only when every index of [best_features] is a
    column of the vectorizer's matrix. *)
Theorem transform_shape (self : Featurizer) (queries : list string)
    (cols : list nat) (M : Matrix) :
  best_features self = Some cols →
  transform self queries = Returns M →
  n_cols M = length cols
  ∧ Forall (λ row, length row = length cols) (rows M)
  ∧ ∃ docs vocabulary idf X,
      preprocess_queries self queries = Returns docs
      ∧ vocabulary_ (tfidf_vectorizer self) = Some vocabulary
      ∧ _idf_diag (tfidf_vectorizer self) = Some idf
      ∧ sk_transform (tokenizer_language (tfidf_vectorizer self))
          vocabulary idf docs = Returns X
      ∧ length (rows M) = length (rows X)
      ∧ Forall (λ j, (j < n_cols X)%nat) cols.
Proof.
  intros Hbest. unfold transform, vectorizer_transform.
  destruct (preprocess_queries self queries) as [docs|]; [| done]. simpl.
  destruct (vocabulary_ (tfidf_vectorizer self)) as [vocabulary|]; [| done].
  destruct (_idf_diag (tfidf_vectorizer self)) as [idf|]; [| done].
  destruct (sk_transform _ vocabulary idf docs) as [X|] eqn:HX; [| done].
  simpl. rewrite Hbest. unfold getitem_columns, select_columns.
  destruct (forallb _ cols) eqn:Hall; [| done].
  intros [= <-]. simpl. split; [done |]. split.
  - apply Forall_fmap, Forall_forall. intros row _. simpl.
    by rewrite length_fmap.
  - exists docs, vocabulary, idf, X. repeat split; try done.
    + by rewrite length_fmap.
    + apply Forall_forall. intros j Hj.
      rewrite forallb_forall in Hall.
      apply Nat.ltb_lt, Hall. by apply list_elem_of_In.
Qed.

(** ** Dictionaries *)

(** X21. Reading a dictionary and writing the Featurizer back returns the
    vocabulary, the IDF sequence, the selected features and the threshold as
    they were; each list of entity names comes back without repetition, with
    the same names. *)
Theorem to_dict_from_dict (obj_dict : FeaturizerDict) (F : Featurizer) :
  from_dict obj_dict = Returns F →
  ∃ obj_dict',
    to_dict F = Returns obj_dict'
    ∧ fd_tfidf_vectorizer obj_dict' = fd_tfidf_vectorizer obj_dict
    ∧ fd_best_features obj_dict' = fd_best_features obj_dict
    ∧ fd_pvalue_threshold obj_dict' = fd_pvalue_threshold obj_dict
    ∧ ∀ k,
        match fd_entity_utterances_to_entity_names obj_dict !! k with
        | None => fd_entity_utterances_to_entity_names obj_dict' !! k = None
        | Some names =>
            ∃ names',
              fd_entity_utterances_to_entity_names obj_dict' !! k
              = Some names'
              ∧ NoDup names'
              ∧ ∀ x, x ∈ names' ↔ x ∈ names
        end.
Proof.
  unfold from_dict, from_iso_code.
  destruct (language_of_iso_code (fd_language_code obj_dict)) as [l|];
    [| done].
  simpl. intros [= <-]. unfold to_dict. simpl. eexists. split; [done |].
  simpl. split; [by destruct (fd_tfidf_vectorizer obj_dict) |].
  split; [done |]. split; [done |].
  intros k. rewrite !lookup_fmap.
  destruct (fd_entity_utterances_to_entity_names obj_dict !! k) as [names|];
    [| done].
  simpl. eexists. split; [done |]. split; [apply NoDup_elements |].
  intros x. by rewrite elem_of_elements, elem_of_list_to_set.
Qed.

(** X22. On a Featurizer read from a dictionary [transform] raises neither
    the [AttributeError] of a missing entity index nor the [NotFittedError]
    of a vectorizer without vocabulary: preprocessing returns, and the
    outcome of [transform], a matrix or an exception, is that of the
    vectorizer's transform under the dictionary's vocabulary and IDF
    sequence followed by the choice of the [best_features] columns. *)
Theorem transform_deserialized (obj_dict : FeaturizerDict) (F : Featurizer)
    (queries : list string) :
  from_dict obj_dict = Returns F →
  ∃ docs,
    preprocess_queries F queries = Returns docs
    ∧ transform F queries
      = (let! X := sk_transform (language F)
                     (vd_vocab (fd_tfidf_vectorizer obj_dict))
                     (vd_idf_diag (fd_tfidf_vectorizer obj_dict)) docs in
         getitem_columns X (fd_best_features obj_dict)).
Proof.
  unfold from_dict, from_iso_code.
  destruct (language_of_iso_code (fd_language_code obj_dict)) as [l|];
    [| done].
  simpl. intros [= <-].
  destruct (preprocess_queries_with_index
              (Featurizer_init l
                 (Some (deserialize_tfidf_vectorizer
                          (fd_tfidf_vectorizer obj_dict) l))
                 (fd_best_features obj_dict)
                 (Some (list_to_set
                          <$> fd_entity_utterances_to_entity_names obj_dict))
                 (fd_pvalue_threshold obj_dict)) queries)
    as [docs Hdocs]; [by eexists |].
  exists docs. split; [done |]. unfold transform. by rewrite Hdocs.
Qed.

(** X23. A Featurizer whose vectorizer is unfitted cannot be serialized:
    [to_dict] raises [AttributeError], also after a [fit] that was aborted on
    a degenerate corpus. *)
Theorem to_dict_unfitted (self : Featurizer) (dataset : Dataset)
    (queries : list string) (y : list nat) :
  vocabulary_ (tfidf_vectorizer self) = None →
  Forall (λ q, Forall (λ t, t = "") (tokenize_light q (language self)))
         queries →
  to_dict self = Raises AttributeError
  ∧ to_dict (fit self dataset queries y).1 = Raises AttributeError.
Proof.
  intros Hv H. rewrite (fit_degenerate _ _ _ _ H).
  unfold to_dict. simpl. by rewrite Hv.
Qed.

(** ** The IDF weights, from the fit to the dictionary *)





End FurtherProperties.

(** * The model on concrete inputs *)

Import Toy.
#[local] Existing Instance four_terms.

Lemma fit_degenerate_corpus_returns_none_witness :
  Forall (λ q, Forall (λ t, t = "") (words q)) blank_queries
  ∧ ∃ self',
      fit (untrained four_terms EN) cities blank_queries [0; 1]
      = (self', Returns ReturnNone)
      ∧ tfidf_vectorizer self' = tfidf_vectorizer (untrained four_terms EN)
      ∧ best_features self' = best_features (untrained four_terms EN).
Proof.
  split; [repeat (constructor; simpl) |].
  apply (fit_degenerate_corpus_returns_none (C := four_terms)).
  repeat (constructor; simpl).
Defined.

Lemma fit_degenerate_corpus_replaces_entity_index_witness :
  Forall (λ q, Forall (λ t, t = "") (words q)) blank_queries
  ∧ ∃ self' index,
      fit fitted cities blank_queries [0; 1] = (self', Returns ReturnNone)
      ∧ entity_utterances_to_entity_names self' = Some index
      ∧ index = normalized_entities EN (get_utterances_entities cities)
      ∧ (∀ k x, x ∈ default ∅ (index !! k)
                ↔ ∃ d u, ds_entities cities !! x = Some d
                         ∧ String.prefix "snips/" x = false
                         ∧ u ∈ utterances_of d
                         ∧ normalize_stem u EN = k)
      ∧ tfidf_vectorizer self' = tfidf_vectorizer fitted
      ∧ best_features self' = best_features fitted
      ∧ pvalue_threshold self' = pvalue_threshold fitted.
Proof.
  split; [repeat (constructor; simpl) |].
  apply (fit_degenerate_corpus_replaces_entity_index (C := four_terms)).
  repeat (constructor; simpl).
Defined.

Lemma fit_transform_degenerate_corpus_raises_witness :
  Forall (λ q, Forall (λ t, t = "") (words q)) blank_queries
  ∧ (fit (untrained four_terms EN) cities blank_queries [0; 1]).2
    = Returns ReturnNone
  ∧ (fit_transform (untrained four_terms EN) cities blank_queries [0; 1]).2
    = Raises AttributeError.
Proof.
  split; [repeat (constructor; simpl) |].
  apply (fit_transform_degenerate_corpus_raises (C := four_terms)).
  repeat (constructor; simpl).
Defined.

Lemma transform_never_fitted_attribute_error_witness :
  ngrams (words "hello") ≠ []
  ∧ transform (untrained four_terms EN) ["hello"] = Raises AttributeError.
Proof.
  split; [vm_compute; discriminate |].
  apply (transform_never_fitted_attribute_error (C := four_terms)).
  apply Exists_cons_hd. vm_compute. discriminate.
Defined.

(** C8 as stated fails: a dictionary with two vocabulary terms and one IDF
    value, and a recognized language code, is read back without an error. *)
Lemma from_dict_length_mismatch_counterexample :
  size (vd_vocab (fd_tfidf_vectorizer mismatched))
  ≠ length (vd_idf_diag (fd_tfidf_vectorizer mismatched))
  ∧ from_dict (C := four_terms) mismatched ≠ Raises StateMismatchError
  ∧ ∃ F, from_dict (C := four_terms) mismatched = Returns F.
Proof.
  split; [vm_compute; discriminate |].
  split; [unfold from_dict, from_iso_code; simpl; discriminate |].
  eexists. reflexivity.
Qed.

Lemma select_best_features_spec_witness :
  select_best_features [Fin (1 # 2); Fin (3 # 10); Fin (3 # 10)] (Fin (1 # 10))
  ≠ [].
Proof.
  apply select_best_features_spec.
  - repeat constructor.
  - discriminate.
Defined.

(** C6 as stated fails: with a NaN p-value, which [chi2] returns for every
    term when the labels hold a single class, no index is below the
    threshold, none equals the minimum, and the selection is empty although
    there is a term. *)
Lemma select_best_features_nan_counterexample :
  [NaN] ≠ []
  ∧ indices_where (λ v, flt v default_pvalue_threshold) [NaN] = []
  ∧ select_best_features [NaN] default_pvalue_threshold = [].
Proof. split; [discriminate | split; reflexivity]. Qed.


(** What the rule does on [two_queries]: "the", with p-value [0.9 * 0.4],
    goes; "a", with p-value [0.1 * 0.4], stays next to "flight". *)
Lemma fitted_best_features : best_features fitted = Some [1; 2].
Proof. reflexivity. Qed.


(** C4. The selection is meant never to be empty, and the fallback of [fit]
    is there for that; the stop-word pass that follows undoes it. On the
    corpus [["the"; "the"]] with the labels [[0; 1]] [fit] returns [self]
    with the vocabulary [{"the": 0}]; the fallback selects index 0, whose
    p-value 1 is the minimum; "the" is a stop word and 1 exceeds half the
    threshold, so the pass removes it and [best_features] is left empty
    after a successful fit. *)
Theorem fit_stop_word_pass_empties_selection :
  (fit (untrained one_stop_word EN) cities ["the"; "the"] [0; 1]).2
  = Returns ReturnSelf
  ∧ vocabulary_
      (tfidf_vectorizer
         (fit (untrained one_stop_word EN) cities ["the"; "the"] [0; 1]).1)
    = Some {[ "the" := 0 ]}
  ∧ select_best_features [Fin 1] default_pvalue_threshold = [0]
  ∧ best_features
      (fit (untrained one_stop_word EN) cities ["the"; "the"] [0; 1]).1
    = Some [].
Proof. repeat split; reflexivity. Qed.

Lemma to_dict_from_dict_round_trip_witness :
  tokenizer_language (tfidf_vectorizer (untrained four_terms EN)) = EN
  ∧ fit (untrained four_terms EN) cities two_queries [0; 1]
    = (fitted, Returns ReturnSelf)
  ∧ ∃ obj_dict F',
      to_dict fitted = Returns obj_dict
      ∧ from_dict obj_dict = Returns F'
      ∧ language F' = language fitted
      ∧ vocabulary_ (tfidf_vectorizer F')
        = vocabulary_ (tfidf_vectorizer fitted)
      ∧ _idf_diag (tfidf_vectorizer F') = _idf_diag (tfidf_vectorizer fitted)
      ∧ best_features F' = best_features fitted
      ∧ entity_utterances_to_entity_names F'
        = entity_utterances_to_entity_names fitted
      ∧ ∀ Q, transform F' Q = transform fitted Q.
Proof.
  split; [reflexivity |]. split; [reflexivity |].
  apply (to_dict_from_dict_round_trip (C := four_terms)
           (untrained four_terms EN) fitted cities two_queries [0; 1]).
  - reflexivity.
  - reflexivity.
Defined.

(** ** The further properties on concrete inputs *)

Lemma get_utterances_entities_lookup_witness :
  get_utterances_entities cities !! "paris" = Some {[ "city" ]}
  ∧ ({[ "city" ]} : gset string) ≠ ∅
  ∧ ∀ x, x ∈ ({[ "city" ]} : gset string)
         ↔ ∃ d ent, ds_entities cities !! x = Some d
                    ∧ String.prefix "snips/" x = false
                    ∧ ent ∈ ent_data d
                    ∧ ("paris" = ent_value ent
                       ∨ (use_synonyms d = true ∧ "paris" ∈ ent_synonyms ent)).
Proof.
  assert (get_utterances_entities cities !! "paris" = Some {[ "city" ]})
    as H by (reflexivity).
  split; [exact H |].
  exact (get_utterances_entities_lookup (C := four_terms) cities "paris"
           {[ "city" ]} H).
Defined.

Lemma preprocess_queries_pointwise_witness :
  preprocess_queries fitted two_queries = Returns ["the flight"; "a hotel"]
  ∧ length ["the flight"; "a hotel"] = length two_queries
  ∧ ∀ i q, two_queries !! i = Some q →
      ∃ d, preprocess_query q (language fitted)
             (entity_utterances_to_entity_names fitted) = Returns d
           ∧ ["the flight"; "a hotel"] !! i = Some (encode_utf8 d).
Proof.
  assert (preprocess_queries fitted two_queries
          = Returns ["the flight"; "a hotel"]) as H
    by (reflexivity).
  split; [exact H |].
  exact (preprocess_queries_pointwise (C := four_terms) fitted two_queries
           ["the flight"; "a hotel"] H).
Defined.

Lemma least_pvalue_always_selected_witness :
  1 ∈ select_best_features [Fin (1 # 2); Fin (3 # 10); Fin (3 # 10)] NaN.
Proof.
  apply (least_pvalue_always_selected _ NaN 1 (3 # 10)).
  - repeat constructor.
  - reflexivity.
  - intros [|[|[|j]]] q'; simpl; intros [= <-]; discriminate.
Defined.

Lemma select_best_features_monotone_witness :
  1 ∈ select_best_features [Fin (1 # 2); Fin (3 # 10); Fin (3 # 10)]
        (Fin (1 # 10))
  ∧ 1 ∈ select_best_features [Fin (1 # 2); Fin (3 # 10); Fin (3 # 10)]
          (Fin (4 # 10)).
Proof.
  assert (1 ∈ select_best_features
                [Fin (1 # 2); Fin (3 # 10); Fin (3 # 10)] (Fin (1 # 10)))
    as H by (vm_compute; repeat constructor).
  split; [exact H |].
  apply (select_best_features_monotone _ (1 # 10) (4 # 10) 1).
  - repeat constructor.
  - discriminate.
  - exact H.
Defined.

Lemma fit_best_features_wellformed_witness :
  fit (untrained four_terms EN) cities two_queries [0; 1]
  = (fitted, Returns ReturnSelf)
  ∧ ∃ vocabulary best,
      vocabulary_ (tfidf_vectorizer fitted) = Some vocabulary
      ∧ best_features fitted = Some best
      ∧ StronglySorted lt best
      ∧ ∀ i, i ∈ best → ∃ word, vocabulary !! word = Some i.
Proof.
  assert (fit (untrained four_terms EN) cities two_queries [0; 1]
          = (fitted, Returns ReturnSelf)) as H by (reflexivity).
  split; [exact H |].
  exact (fit_best_features_wellformed (C := four_terms) _ _ _ _ _ H).
Defined.

Lemma fit_replaces_learned_state_witness :
  fit (untrained four_terms EN) cities two_queries [0; 1]
  = (fitted, Returns ReturnSelf)
  ∧ fit fitted cities two_queries [0; 1] = (fitted, Returns ReturnSelf).
Proof.
  assert (fit (untrained four_terms EN) cities two_queries [0; 1]
          = (fitted, Returns ReturnSelf)) as H by (reflexivity).
  split; [exact H |].
  exact (proj2 (fit_replaces_learned_state (C := four_terms)
                  (untrained four_terms EN) fitted fitted cities two_queries
                  [0; 1] eq_refl eq_refl eq_refl H)).
Defined.

Lemma fit_chi2_raises_witness :
  (fit (untrained broken_chi2 EN) cities two_queries [0; 1]).2
  = Raises ValueError
  ∧ best_features (fit (untrained broken_chi2 EN) cities two_queries [0; 1]).1
    = None.
Proof.
  edestruct (fit_chi2_raises (C := broken_chi2) (untrained broken_chi2 EN)
               cities two_queries [0; 1]) as (H1 & _ & _ & H4);
    [reflexivity | reflexivity | reflexivity | reflexivity |].
  split; [exact H1 | exact H4].
Defined.

Lemma fit_vectorizer_raises_witness :
  fit (untrained broken_vectorizer EN) cities two_queries [0; 1]
  = (set_entities (untrained broken_vectorizer EN)
       (normalized_entities EN (get_utterances_entities cities)),
     Raises ValueError).
Proof.
  eapply (fit_vectorizer_raises (C := broken_vectorizer)); reflexivity.
Defined.

Lemma fit_key_error_witness :
  (fit (untrained four_terms EN) cities one_query [0]).2 = Raises KeyError
  ∧ best_features (fit (untrained four_terms EN) cities one_query [0]).1
    = Some [0; 1; 2].
Proof.
  eapply (fit_key_error (C := four_terms) (untrained four_terms EN) cities
            one_query [0] _ _ _
            [Fin (36 # 100); Fin (3 # 10); Fin (4 # 100); Fin (1 # 2)] _ 2).
  - reflexivity.
  - reflexivity.
  - reflexivity.
  - reflexivity.
  - vm_compute. repeat constructor.
  - intros word H. apply elem_of_map_to_list in H. vm_compute in H.
    inversion H as [|? ? ? H']; subst.
    inversion H' as [|? ? ? H'']; subst. inversion H''.
Defined.

Lemma fit_transform_after_fit_witness :
  fit (untrained four_terms EN) cities two_queries [0; 1]
  = (fitted, Returns ReturnSelf)
  ∧ ∃ docs vocabulary idf best,
      preprocess_queries
        (set_entities (untrained four_terms EN)
           (normalized_entities EN (get_utterances_entities cities)))
        two_queries = Returns docs
      ∧ vocabulary_ (tfidf_vectorizer fitted) = Some vocabulary
      ∧ _idf_diag (tfidf_vectorizer fitted) = Some idf
      ∧ best_features fitted = Some best
      ∧ fit_transform (untrained four_terms EN) cities two_queries [0; 1]
        = (fitted,
           let! X := sk_transform EN vocabulary idf docs in
           select_columns X best).
Proof.
  assert (fit (untrained four_terms EN) cities two_queries [0; 1]
          = (fitted, Returns ReturnSelf)) as H by (reflexivity).
  split; [exact H |].
  exact (fit_transform_after_fit (C := four_terms) _ _ _ _ _ H).
Defined.

Lemma transform_shape_witness :
  best_features fitted = Some [1; 2]
  ∧ ∃ M, transform fitted two_queries = Returns M ∧ n_cols M = 2.
Proof.
  assert (best_features fitted = Some [1; 2]) as Hb
    by (reflexivity).
  split; [exact Hb |]. eexists. split; [reflexivity |].
  refine (proj1 (transform_shape (C := four_terms) fitted two_queries
                   [1; 2] _ Hb _)).
  reflexivity.
Defined.

Lemma to_dict_from_dict_witness :
  ∃ F, from_dict repeated_names = Returns F
       ∧ ∃ obj_dict',
           to_dict F = Returns obj_dict'
           ∧ fd_tfidf_vectorizer obj_dict'
             = fd_tfidf_vectorizer repeated_names
           ∧ fd_best_features obj_dict' = fd_best_features repeated_names
           ∧ fd_pvalue_threshold obj_dict'
             = fd_pvalue_threshold repeated_names
           ∧ ∀ k,
               match fd_entity_utterances_to_entity_names repeated_names
                     !! k with
               | None =>
                   fd_entity_utterances_to_entity_names obj_dict' !! k = None
               | Some names =>
                   ∃ names',
                     fd_entity_utterances_to_entity_names obj_dict' !! k
                     = Some names'
                     ∧ NoDup names'
                     ∧ ∀ x, x ∈ names' ↔ x ∈ names
               end.
Proof.
  eexists. split; [reflexivity |].
  apply (to_dict_from_dict (C := four_terms) repeated_names).
  reflexivity.
Defined.

Lemma transform_deserialized_witness :
  ∃ F, from_dict repeated_names = Returns F
       ∧ ∃ docs,
           preprocess_queries F ["a b"] = Returns docs
           ∧ transform F ["a b"]
             = (let! X := sk_transform (language F)
                            (vd_vocab (fd_tfidf_vectorizer repeated_names))
                            (vd_idf_diag
                               (fd_tfidf_vectorizer repeated_names))
                            docs in
                getitem_columns X (fd_best_features repeated_names)).
Proof.
  eexists. split; [reflexivity |].
  apply (transform_deserialized (C := four_terms) repeated_names).
  reflexivity.
Defined.

Lemma to_dict_unfitted_witness :
  vocabulary_ (tfidf_vectorizer (untrained four_terms EN)) = None
  ∧ Forall (λ q, Forall (λ t, t = "") (words q)) blank_queries
  ∧ to_dict (untrained four_terms EN) = Raises AttributeError
  ∧ to_dict (fit (untrained four_terms EN) cities blank_queries [0; 1]).1
    = Raises AttributeError.
Proof.
  split; [reflexivity |]. split; [repeat (constructor; simpl) |].
  apply (to_dict_unfitted (C := four_terms)); [reflexivity |].
  repeat (constructor; simpl).
Defined.

